(** * Quantum key service: [quantum_keygen.py]

    A shallow embedding of
    [FAITH_BLOCKCHAIN_EMPIRE/Quantum_Crypto_Engineer/quantum_keygen.py]:
    the three service functions [generate_quantum_keypair], [sign_message]
    and [verify_signature], the Python builtins they call
    ([bytes.hex], [bytes.fromhex], [str.encode], [bytes.decode]) and the
    signature primitive they import, which is kept abstract.  The script
    part of the module (it writes the generated record to a JSON file) and
    the two other files of the repository, a ledger client and an inference
    smoke test, take no part in what is proved here. *)

From Stdlib Require Import List NArith ZArith Bool Ascii String Lia.
From Stdlib Require Import Strings.Byte DecimalString.
Import ListNotations.

Local Open Scope N_scope.

(** ** Python values *)

(** A Python [str] is a sequence of code points, a [bytes] object a
    sequence of octets. *)
Definition codepoint := N.
Definition str := list codepoint.
Definition bytes := list byte.

(** The exceptions the builtins raise here, and any other class by name
    (whatever the primitive raises). *)
Inductive exn : Type :=
| ValueError
| TypeError
| AttributeError
| UnicodeEncodeError
| UnicodeDecodeError
| OtherError (name : string).

Inductive result (A : Type) : Type :=
| Ok (a : A)
| Raise (e : exn).
Arguments Ok {A} a.
Arguments Raise {A} e.

(** Arguments are dynamically typed: a caller may pass any of these. *)
Inductive pyval : Type :=
| VStr (s : str)
| VBytes (b : bytes)
| VBool (b : bool)
| VNone.

Coercion VStr : str >-> pyval.

(** Text literals, for examples: the code points of an ASCII literal. *)
Fixpoint text (s : string) : str :=
  match s with
  | EmptyString => []
  | String a s' => N_of_ascii a :: text s'
  end.

Definition str_eqb (a b : str) : bool :=
  if list_eq_dec N.eq_dec a b then true else false.

(** [x == y] where [x] is a [str]: only an equal [str] compares equal. *)
Definition py_str_eq (x : str) (y : pyval) : bool :=
  match y with
  | VStr s => str_eqb x s
  | _ => false
  end.

(** An octet from its value (values below 256 only). *)
Definition byte_of_N (n : N) : byte :=
  match Byte.of_N n with
  | Some b => b
  | None => x00
  end.

(** ** [bytes.hex] and [bytes.fromhex] *)

Module Hex.

(** The digit for a value below 16, lowercase. *)
Definition digit (d : N) : codepoint :=
  if d <? 10 then 48 + d else 87 + d.

(** [_PyLong_DigitValue] restricted to values below 16. *)
Definition digit_value (c : codepoint) : option N :=
  if (48 <=? c) && (c <=? 57) then Some (c - 48)
  else if (97 <=? c) && (c <=? 102) then Some (c - 87)
  else if (65 <=? c) && (c <=? 70) then Some (c - 55)
  else None.

(** [Py_ISSPACE]: space, and tab to carriage return. *)
Definition is_space (c : codepoint) : bool :=
  (c =? 32) || ((9 <=? c) && (c <=? 13)).

Definition is_hexdigit (c : codepoint) : bool :=
  match digit_value c with Some _ => true | None => false end.

(** [b.hex()] *)
Fixpoint hex (b : bytes) : str :=
  match b with
  | [] => []
  | x :: b' =>
      digit (Byte.to_N x / 16) :: digit (Byte.to_N x mod 16) :: hex b'
  end.

(** [bytes.fromhex(s)], Python 3.7 and later: ASCII whitespace is skipped
    in front of a pair of digits and at the end, never inside a pair;
    every other failure is a [ValueError]. *)
Fixpoint fromhex (s : str) : result bytes :=
  match s with
  | [] => Ok []
  | c :: s1 =>
      if is_space c then fromhex s1
      else
        match digit_value c with
        | None => Raise ValueError
        | Some top =>
            match s1 with
            | [] => Raise ValueError
            | c2 :: s2 =>
                match digit_value c2 with
                | None => Raise ValueError
                | Some bot =>
                    match fromhex s2 with
                    | Ok r => Ok (byte_of_N (top * 16 + bot) :: r)
                    | Raise e => Raise e
                    end
                end
            end
        end
  end.

(** [s.lower()] on ASCII text. *)
Definition lower_char (c : codepoint) : codepoint :=
  if (65 <=? c) && (c <=? 90) then c + 32 else c.

Definition lowercase (s : str) : str := map lower_char s.

(** A valid hex string: even length, every character a hex digit. *)
Definition valid (s : str) : bool :=
  Nat.even (List.length s) && forallb is_hexdigit s.

(** A malformed one: odd length, or some character that is no hex digit. *)
Definition malformed (s : str) : bool :=
  Nat.odd (List.length s) || existsb (fun c => negb (is_hexdigit c)) s.

(** The string without its ASCII whitespace. *)
Definition strip (s : str) : str := filter (fun c => negb (is_space c)) s.

Definition no_space (s : str) : bool :=
  forallb (fun c => negb (is_space c)) s.

(** A digit as [hex] writes them: [0-9a-f]. *)
Definition is_lower_hexdigit (c : codepoint) : bool :=
  ((48 <=? c) && (c <=? 57)) || ((97 <=? c) && (c <=? 102)).

(** The strings [fromhex] takes: pairs of hex digits, with whitespace
    allowed in front of a pair and after the last one. *)
Inductive accepted : str -> Prop :=
| accepted_nil : accepted []
| accepted_space c s : is_space c = true -> accepted s -> accepted (c :: s)
| accepted_pair c1 c2 s :
    is_hexdigit c1 = true -> is_hexdigit c2 = true -> accepted s ->
    accepted (c1 :: c2 :: s).

End Hex.

(** ** [str.encode] and [bytes.decode] (UTF-8, strict) *)

Module Utf8.

Definition is_surrogate (c : codepoint) : bool :=
  (0xD800 <=? c) && (c <=? 0xDFFF).

(** The code points [encode] accepts: Unicode scalar values. *)
Definition is_scalar (c : codepoint) : bool :=
  (c <? 0x110000) && negb (is_surrogate c).

(** The octets of one code point; a surrogate cannot be encoded.  (A [str]
    holds no value above 0x10FFFF; the last branch is never taken on one.) *)
Definition encode_char (c : codepoint) : result bytes :=
  if c <? 0x80 then Ok [byte_of_N c]
  else if c <? 0x800 then
    Ok [byte_of_N (0xC0 + c / 0x40); byte_of_N (0x80 + c mod 0x40)]
  else if is_surrogate c then Raise UnicodeEncodeError
  else if c <? 0x10000 then
    Ok [byte_of_N (0xE0 + c / 0x1000);
        byte_of_N (0x80 + (c / 0x40) mod 0x40);
        byte_of_N (0x80 + c mod 0x40)]
  else if c <? 0x110000 then
    Ok [byte_of_N (0xF0 + c / 0x40000);
        byte_of_N (0x80 + (c / 0x1000) mod 0x40);
        byte_of_N (0x80 + (c / 0x40) mod 0x40);
        byte_of_N (0x80 + c mod 0x40)]
  else Raise UnicodeEncodeError.

(** [s.encode()] *)
Fixpoint encode (s : str) : result bytes :=
  match s with
  | [] => Ok []
  | c :: s' =>
      match encode_char c with
      | Raise e => Raise e
      | Ok b =>
          match encode s' with
          | Raise e => Raise e
          | Ok r => Ok (b ++ r)
          end
      end
  end.

Definition in_range (lo hi n : N) : bool := (lo <=? n) && (n <=? hi).

Definition is_cont (n : N) : bool := in_range 0x80 0xBF n.

(** The text [encode] accepts. *)
Definition encodable (s : str) : bool := forallb is_scalar s.

Definition push (c : codepoint) (r : result str) : result str :=
  match r with
  | Ok s => Ok (c :: s)
  | Raise e => Raise e
  end.

(** [b.decode()]: the well-formed sequences of the Unicode standard (no
    overlong form, no surrogate, nothing above 0x10FFFF); anything else is
    a [UnicodeDecodeError]. *)
Fixpoint decode (b : bytes) : result str :=
  match b with
  | [] => Ok []
  | x1 :: t1 =>
      let n1 := Byte.to_N x1 in
      if n1 <? 0x80 then push n1 (decode t1)
      else if n1 <? 0xC2 then Raise UnicodeDecodeError
      else if n1 <? 0xE0 then
        match t1 with
        | x2 :: t2 =>
            let n2 := Byte.to_N x2 in
            if is_cont n2
            then push ((n1 mod 0x20) * 0x40 + n2 mod 0x40) (decode t2)
            else Raise UnicodeDecodeError
        | _ => Raise UnicodeDecodeError
        end
      else if n1 <? 0xF0 then
        match t1 with
        | x2 :: x3 :: t3 =>
            let n2 := Byte.to_N x2 in
            let n3 := Byte.to_N x3 in
            if in_range (if n1 =? 0xE0 then 0xA0 else 0x80)
                        (if n1 =? 0xED then 0x9F else 0xBF) n2
               && is_cont n3
            then push ((n1 mod 0x10) * 0x1000 + (n2 mod 0x40) * 0x40
                       + n3 mod 0x40) (decode t3)
            else Raise UnicodeDecodeError
        | _ => Raise UnicodeDecodeError
        end
      else if n1 <? 0xF5 then
        match t1 with
        | x2 :: x3 :: x4 :: t4 =>
            let n2 := Byte.to_N x2 in
            let n3 := Byte.to_N x3 in
            let n4 := Byte.to_N x4 in
            if in_range (if n1 =? 0xF0 then 0x90 else 0x80)
                        (if n1 =? 0xF4 then 0x8F else 0xBF) n2
               && is_cont n3 && is_cont n4
            then push ((n1 mod 0x8) * 0x40000 + (n2 mod 0x40) * 0x1000
                       + (n3 mod 0x40) * 0x40 + n4 mod 0x40) (decode t4)
            else Raise UnicodeDecodeError
        | _ => Raise UnicodeDecodeError
        end
      else Raise UnicodeDecodeError
  end.

End Utf8.

(** ** The signature primitive

    [from pqcrypto.sign.dilithium5 import generate_keypair, sign, verify]:
    an external library, kept abstract.  Its operations are taken with the
    shape the service calls them with: [generate_keypair()] returns a pair of
    buffers, [sign(secret_key, data)] a buffer, [verify(public_key,
    signature)] the recovered message; each may raise.  Key generation and
    signing draw on an entropy source, which is threaded explicitly.
    [PK_LEN] and [SK_LEN] are the buffer lengths the parameter set
    declares; the service itself names neither. *)
Record Primitive : Type := {
  entropy : Type;
  PK_LEN : nat;
  SK_LEN : nat;
  generate_keypair : entropy -> result (bytes * bytes) * entropy;
  sign : bytes -> bytes -> entropy -> result bytes * entropy;
  verify : bytes -> bytes -> result bytes
}.

(** A call of the primitive that the service made. *)
Inductive event : Type :=
| CallKeygen
| CallSign (secret_key data : bytes)
| CallVerify (public_key signature : bytes).

(** The state a call runs in: the entropy source and the primitive calls
    made so far, oldest first. *)
Record world (P : Primitive) : Type := {
  rng : entropy P;
  calls : list event
}.
Arguments rng {P} w.
Arguments calls {P} w.

(** ** Computations that may raise *)

Definition M (P : Primitive) (A : Type) : Type :=
  world P -> result A * world P.

Definition ret {P A} (a : A) : M P A := fun w => (Ok a, w).

Definition bind {P A B} (c : M P A) (k : A -> M P B) : M P B :=
  fun w =>
    match c w with
    | (Ok a, w') => k a w'
    | (Raise e, w') => (Raise e, w')
    end.

Definition lift {P A} (r : result A) : M P A := fun w => (r, w).

(** [try: body / except: handler] with a bare [except], which catches
    every exception. *)
Definition try_except {P A} (body handler : M P A) : M P A :=
  fun w =>
    match body w with
    | (Ok a, w') => (Ok a, w')
    | (Raise _, w') => handler w'
    end.

Declare Scope py_scope.
Delimit Scope py_scope with py.
Notation "x <- c ;; k" := (bind c (fun x => k))
  (at level 61, c at next level, right associativity) : py_scope.
Notation "' pat <- c ;; k" := (bind c (fun x => match x with pat => k end))
  (at level 61, pat pattern, c at next level, right associativity) : py_scope.

(** ** Builtins on dynamically typed arguments *)

(** [bytes.fromhex(v)]: a [TypeError] unless [v] is a [str] (CPython
    before 3.14). *)
Definition bytes_fromhex (v : pyval) : result bytes :=
  match v with
  | VStr s => Hex.fromhex s
  | _ => Raise TypeError
  end.

(** [v.encode()]: only a [str] has the method. *)
Definition str_encode (v : pyval) : result bytes :=
  match v with
  | VStr s => Utf8.encode s
  | _ => Raise AttributeError
  end.

(** ** The service *)

Section Service.

Variable P : Primitive.

Local Open Scope py_scope.

Definition after_call (ev : event) (w : world P) (e : entropy P) : world P :=
  {| rng := e; calls := calls w ++ [ev] |}.

Definition call_generate_keypair : M P (bytes * bytes) :=
  fun w =>
    let (r, e) := generate_keypair P (rng w) in (r, after_call CallKeygen w e).

Definition call_sign (secret_key data : bytes) : M P bytes :=
  fun w =>
    let (r, e) := sign P secret_key data (rng w) in
    (r, after_call (CallSign secret_key data) w e).

Definition call_verify (public_key signature : bytes) : M P bytes :=
  fun w =>
    (verify P public_key signature,
     after_call (CallVerify public_key signature) w (rng w)).

(** The dict [generate_quantum_keypair] returns, in insertion order. *)
Definition key_record : Type := list (string * str).

Definition generate_quantum_keypair : M P key_record :=
  ' (public_key, secret_key) <- call_generate_keypair ;;
  ret [("public_key"%string, Hex.hex public_key);
       ("secret_key"%string, Hex.hex secret_key)].

Definition sign_message (message secret_key_hex : pyval) : M P str :=
  secret_key <- lift (bytes_fromhex secret_key_hex) ;;
  data <- lift (str_encode message) ;;
  signature <- call_sign secret_key data ;;
  ret (Hex.hex signature).

Definition verify_signature (message signature_hex public_key_hex : pyval)
  : M P bool :=
  signature <- lift (bytes_fromhex signature_hex) ;;
  public_key <- lift (bytes_fromhex public_key_hex) ;;
  try_except
    (original <- call_verify public_key signature ;;
     decoded <- lift (Utf8.decode original) ;;
     ret (py_str_eq decoded message))
    (ret false).

(** What [verify_signature] returns once both hex arguments decode. *)
Definition verdict (message : pyval) (public_key signature : bytes) : bool :=
  match verify P public_key signature with
  | Ok original =>
      match Utf8.decode original with
      | Ok decoded => py_str_eq decoded message
      | Raise _ => false
      end
  | Raise _ => false
  end.

End Service.

(** ** Calling a function

    How Python binds the arguments of a call to a [def] whose parameters
    have no defaults: positional arguments in order, then keywords; an
    argument too many, an unknown keyword, a parameter given twice or one
    left out is a [TypeError], raised before the body runs. *)

Definition environment : Type := list (string * pyval).

Fixpoint lookup (name : string) (env : environment) : option pyval :=
  match env with
  | [] => None
  | (k, v) :: env' => if String.eqb k name then Some v else lookup name env'
  end.

Definition mem (name : string) (names : list string) : bool :=
  existsb (String.eqb name) names.

Fixpoint bind_keywords (params : list string) (env kwargs : environment)
  : result environment :=
  match kwargs with
  | [] => Ok env
  | (k, v) :: kwargs' =>
      if negb (mem k params) then Raise TypeError
      else match lookup k env with
           | Some _ => Raise TypeError
           | None => bind_keywords params (env ++ [(k, v)]) kwargs'
           end
  end.

Definition bind_arguments (params : list string) (args : list pyval)
  (kwargs : environment) : result environment :=
  if Nat.ltb (List.length params) (List.length args) then Raise TypeError
  else
    match bind_keywords params (combine params args) kwargs with
    | Raise e => Raise e
    | Ok env =>
        if forallb (fun p => mem p (map fst env)) params then Ok env
        else Raise TypeError
    end.

Definition arg (env : environment) (name : string) : pyval :=
  match lookup name env with
  | Some v => v
  | None => VNone
  end.

Section Calls.

Variable P : Primitive.

Local Open Scope py_scope.
Local Open Scope string_scope.

(** A call of [sign_message] with positional and keyword arguments. *)
Definition apply_sign_message (args : list pyval) (kwargs : environment)
  : M P str :=
  env <- lift (bind_arguments ["message"; "secret_key_hex"] args kwargs) ;;
  sign_message P (arg env "message") (arg env "secret_key_hex").

(** A call of [verify_signature] with positional and keyword arguments. *)
Definition apply_verify_signature (args : list pyval) (kwargs : environment)
  : M P bool :=
  env <- lift (bind_arguments ["message"; "signature_hex"; "public_key_hex"]
                 args kwargs) ;;
  verify_signature P (arg env "message") (arg env "signature_hex")
                   (arg env "public_key_hex").

End Calls.

(** ** Pairs and key lengths *)

(** [(pk, sk)] is a pair the primitive's key generation can return. *)
Definition keypair_of (P : Primitive) (pk sk : bytes) : Prop :=
  exists e e', generate_keypair P e = (Ok (pk, sk), e').


(** ** A transparent instance of the primitive

    Not a secure scheme, and one in message-recovery form: a four-octet
    key serves as both halves of the pair, a signed message is the key
    followed by the data, and opening strips the key after comparing it.
    The strict variant rejects a key of another length with a
    [ValueError]; the lenient one does not look at lengths. *)

Module Transparent.

Definition key_of (e : N) : bytes :=
  [byte_of_N (e / 0x1000000 mod 0x100); byte_of_N (e / 0x10000 mod 0x100);
   byte_of_N (e / 0x100 mod 0x100); byte_of_N (e mod 0x100)].

Definition bytes_eqb (a b : bytes) : bool :=
  if list_eq_dec Byte.byte_eq_dec a b then true else false.

Definition generate (e : N) : result (bytes * bytes) * N :=
  (Ok (key_of e, key_of e), e + 1).

Definition seal (strict : bool) (secret_key data : bytes) (e : N)
  : result bytes * N :=
  if strict && negb (Nat.eqb (List.length secret_key) 4)
  then (Raise ValueError, e)
  else (Ok (secret_key ++ data), e).

Definition unseal (strict : bool) (public_key signature : bytes)
  : result bytes :=
  if strict && negb (Nat.eqb (List.length public_key) 4)
  then Raise ValueError
  else if bytes_eqb (firstn (List.length public_key) signature) public_key
       then Ok (skipn (List.length public_key) signature)
       else Raise (OtherError "VerificationError").

Definition make (declared : nat) (strict : bool) : Primitive :=
  {| entropy := N; PK_LEN := declared; SK_LEN := declared;
     generate_keypair := generate; sign := seal strict;
     verify := unseal strict |}.

Definition primitive : Primitive := make 4 true.

(** The same operations without the length checks. *)
Definition lenient : Primitive := make 4 false.

(** The same operations under a parameter set that declares eight-octet
    keys: a mismatched build of the primitive. *)
Definition mismatched : Primitive := make 8 true.

(** A fresh state: entropy [e], no call made yet. *)
Definition start (declared : nat) (strict : bool) (e : N)
  : world (make declared strict) :=
  Build_world (make declared strict) e [].

End Transparent.

(** ** The primitive as the design describes it

    Modelled from the spec: the signature primitive of section 2, which
    supplies [keygen() -> (pk, sk)], [sign(sk, msg) -> sig] and
    [verify(pk, msg, sig) -> bool] on byte buffers of fixed
    algorithm-defined lengths; a signature is [bytes[SIG_LEN]], detached
    from the message (section 3).  The library the source imports is not
    among the sources. *)

Module Library.

Record t : Type := {
  entropy : Type;
  PK_LEN : nat;
  SK_LEN : nat;
  SIG_LEN : nat;
  keygen : entropy -> result (bytes * bytes) * entropy;
  sign : bytes -> bytes -> entropy -> result bytes * entropy;
  verify : bytes -> bytes -> bytes -> result bool
}.

Definition keypair_of (L : t) (pk sk : bytes) : Prop :=
  exists e e', keygen L e = (Ok (pk, sk), e').

(** Section 8 of the spec, for the primitive itself:
    [verify(pk, m, sign(sk, m)) == true]. *)
Definition correct (L : t) : Prop :=
  forall pk sk, keypair_of L pk sk ->
  forall data e sig e',
    sign L sk data e = (Ok sig, e') -> verify L pk data sig = Ok true.

Definition verify_parameters : list string :=
  ["public_key"; "message"; "signature"]%string.

(** A call of [verify] with positional arguments: they are bound to the
    three parameters first, and only a call that binds all of them
    reaches the body. *)
Definition call_verify (L : t) (args : list pyval) : result pyval :=
  match bind_arguments verify_parameters args [] with
  | Raise e => Raise e
  | Ok env =>
      match arg env "public_key", arg env "message", arg env "signature" with
      | VBytes pk, VBytes msg, VBytes sig =>
          match verify L pk msg sig with
          | Ok b => Ok (VBool b)
          | Raise e => Raise e
          end
      | _, _, _ => Raise TypeError
      end
  end.

(** The library as the source calls it.  Line 28 is
    [verify(public_key, signature)], two positional arguments; what comes
    back is then decoded, which only a [bytes] value allows. *)
Definition as_called (L : t) : Primitive :=
  Build_Primitive (entropy L) (PK_LEN L) (SK_LEN L) (keygen L) (sign L)
    (fun public_key signature =>
       match call_verify L [VBytes public_key; VBytes signature] with
       | Raise e => Raise e
       | Ok (VBytes original) => Ok original
       | Ok _ => Raise AttributeError
       end).

End Library.

(** ** A detached instance of the library

    Not a secure scheme either: a four-octet key serves as both halves of
    the pair and a signature is a four-octet tag computed from the key and
    the message, which [verify] computes again and compares.  Keys and
    signatures of another length are refused with a [ValueError]. *)

Module Tagged.

Definition mix (acc : N) (b : byte) : N :=
  (acc * 257 + Byte.to_N b + 1) mod 0x100000000.

Definition tag (key data : bytes) : bytes :=
  Transparent.key_of (fold_left mix (key ++ data) 0).

Definition sign_detached (key data : bytes) (e : N) : result bytes * N :=
  if Nat.eqb (List.length key) 4 then (Ok (tag key data), e)
  else (Raise ValueError, e).

Definition verify_detached (key data signature : bytes) : result bool :=
  if Nat.eqb (List.length key) 4 && Nat.eqb (List.length signature) 4
  then Ok (Transparent.bytes_eqb signature (tag key data))
  else Raise ValueError.

Definition library : Library.t :=
  {| Library.entropy := N; Library.PK_LEN := 4; Library.SK_LEN := 4;
     Library.SIG_LEN := 4; Library.keygen := Transparent.generate;
     Library.sign := sign_detached; Library.verify := verify_detached |}.

(** A fresh state of the source running on this library. *)
Definition start (e : N) : world (Library.as_called library) :=
  Build_world (Library.as_called library) e [].

End Tagged.

(** ** The script

    What the module does when it is run: it prints a line, generates a
    pair, writes the record to [quantum_keys.json] with
    [json.dump(keys, f, indent=2)] and prints three more lines.  The host
    is the text printed so far, the files, the paths that cannot be
    opened for writing, and what the encoding of the standard output can
    write beyond ASCII.  A file that opens takes what is written to it. *)

(** [d[k]]: a [KeyError] when the key is missing. *)
Fixpoint getitem (d : key_record) (k : string) : result str :=
  match d with
  | [] => Raise (OtherError "KeyError")
  | (k', v) :: d' => if String.eqb k' k then Ok v else getitem d' k
  end.

(** [str(n)] for a length. *)
Definition decimal (n : nat) : str :=
  text (NilZero.string_of_uint (Nat.to_uint n)).

Module Json.

(** Four lowercase hex digits, as the format [04x] writes a value below
    0x10000. *)
Definition hex4 (n : N) : str :=
  [Hex.digit (n / 0x1000 mod 0x10); Hex.digit (n / 0x100 mod 0x10);
   Hex.digit (n / 0x10 mod 0x10); Hex.digit (n mod 0x10)].

(** A backslash, the letter u and four digits. *)
Definition unicode_escape (n : N) : str := 92 :: 117 :: hex4 n.

(** What [py_encode_basestring_ascii] writes for one character: the short
    escapes, printable ASCII as it is, anything else as one escape or as a
    surrogate pair of two. *)
Definition escape_char (c : codepoint) : str :=
  if c =? 92 then [92; 92]
  else if c =? 34 then [92; 34]
  else if c =? 8 then [92; 98]
  else if c =? 12 then [92; 102]
  else if c =? 10 then [92; 110]
  else if c =? 13 then [92; 114]
  else if c =? 9 then [92; 116]
  else if (0x20 <=? c) && (c <=? 0x7E) then [c]
  else if c <? 0x10000 then unicode_escape c
  else
    let n := c - 0x10000 in
    unicode_escape (N.lor 0xD800 (N.land (N.shiftr n 10) 0x3FF))
    ++ unicode_escape (N.lor 0xDC00 (N.land n 0x3FF)).

(** A string between double quotes ([ensure_ascii] is on by default). *)
Definition encode_string (s : str) : str :=
  34 :: flat_map escape_char s ++ [34].

(** A line break and one level of the two-space indent. *)
Definition newline_indent : str := [10; 32; 32].

Definition item (kv : string * str) : str :=
  encode_string (text (fst kv)) ++ text ": " ++ encode_string (snd kv).

Fixpoint items (d : key_record) : str :=
  match d with
  | [] => []
  | kv :: d' =>
      match d' with
      | [] => item kv
      | _ => item kv ++ [44] ++ newline_indent ++ items d'
      end
  end.

(** The text [json.dump(d, f, indent=2)] writes for a dict of strings. *)
Definition dumps (d : key_record) : str :=
  match d with
  | [] => text "{}"
  | _ => [123] ++ newline_indent ++ items d ++ [10; 125]
  end.

End Json.

Record host : Type := {
  stdout : list str;
  files : list (string * str);
  locked : list string;
  encodes : codepoint -> bool
}.

(** The host with one more line on its standard output. *)
Definition emit (line : str) (h : host) : host :=
  {| stdout := stdout h ++ [line]; files := files h; locked := locked h;
     encodes := encodes h |}.

(** The lines the standard output can encode: ASCII always, another
    character when the encoding has it. *)
Definition printable (h : host) (line : str) : bool :=
  forallb (fun c => (c <? 0x80) || encodes h c) line.

(** [print(line)]: the line is encoded as a whole before anything is
    written (the error handler of the standard output is [strict]), so a
    character the encoding lacks raises [UnicodeEncodeError] and leaves
    the output as it was. *)
Definition print (line : str) (h : host) : result host :=
  if printable h line then Ok (emit line h) else Raise UnicodeEncodeError.

Fixpoint content (path : string) (fs : list (string * str)) : option str :=
  match fs with
  | [] => None
  | (p, c) :: fs' => if String.eqb p path then Some c else content path fs'
  end.

Definition store (path : string) (c : str) (fs : list (string * str))
  : list (string * str) :=
  (path, c) :: filter (fun pc => negb (String.eqb (fst pc) path)) fs.

(** [open(path, 'w')]: the file is created or emptied; an [OSError] when
    it cannot be opened. *)
Definition open_w (path : string) (h : host) : result host :=
  if mem path (locked h) then Raise (OtherError "OSError")
  else Ok {| stdout := stdout h; files := store path [] (files h);
             locked := locked h; encodes := encodes h |}.

(** [f.write(chunk)] on the file opened at [path]. *)
Definition write (path : string) (chunk : str) (h : host) : host :=
  match content path (files h) with
  | Some c =>
      {| stdout := stdout h; files := store path (c ++ chunk) (files h);
         locked := locked h; encodes := encodes h |}
  | None => h
  end.

Section Script.

Variable P : Primitive.

(** The check mark the last three lines start with. *)
Definition check_mark : str := [0x2713].

(** The body under [if __name__ == "__main__"]. *)
Definition main (w : world P) (h : host) : result unit * world P * host :=
  match print (text "Generating quantum-resistant keypair...") h with
  | Raise e => (Raise e, w, h)
  | Ok h1 =>
  match generate_quantum_keypair P w with
  | (Raise e, w1) => (Raise e, w1, h1)
  | (Ok keys, w1) =>
  match open_w "quantum_keys.json" h1 with
  | Raise e => (Raise e, w1, h1)
  | Ok h2 =>
  let h3 := write "quantum_keys.json" (Json.dumps keys) h2 in
  match print (check_mark
               ++ text " Quantum keys generated: quantum_keys.json") h3 with
  | Raise e => (Raise e, w1, h3)
  | Ok h4 =>
  match getitem keys "public_key" with
  | Raise e => (Raise e, w1, h4)
  | Ok public_key_hex =>
  match print (check_mark ++ text " Public key length: "
               ++ decimal (List.length public_key_hex)
               ++ text " chars") h4 with
  | Raise e => (Raise e, w1, h4)
  | Ok h5 =>
  match print (check_mark
               ++ text " Algorithm: CRYSTALS-Dilithium5 (NIST PQC)") h5 with
  | Raise e => (Raise e, w1, h5)
  | Ok h6 => (Ok tt, w1, h6)
  end end end end end end end.

End Script.

(** * Properties *)

(** ** Octets *)

Lemma to_N_lt (b : byte) : Byte.to_N b < 256.
Proof. pose proof (Byte.to_N_bounded b). lia. Qed.

Lemma to_N_byte_of_N (n : N) : n < 256 -> Byte.to_N (byte_of_N n) = n.
Proof.
  intros Hn. unfold byte_of_N.
  destruct (Byte.of_N n) as [b|] eqn:E.
  - now apply Byte.to_of_N.
  - apply Byte.of_N_None_iff in E. lia.
Qed.

Lemma byte_of_N_to_N (b : byte) : byte_of_N (Byte.to_N b) = b.
Proof. unfold byte_of_N. now rewrite Byte.of_to_N. Qed.

Lemma Ok_inj {A} (a b : A) : Ok a = Ok b -> a = b.
Proof. now intros [= ->]. Qed.

Lemma Some_inj {A} (a b : A) : Some a = Some b -> a = b.
Proof. now intros [= ->]. Qed.

(** Quotients and remainders by constants, for [lia]. *)
#[local] Ltac Zify.zify_post_hook ::= Z.to_euclidean_division_equations.

(** Case analysis on the comparisons of a goal, dropping the branches
    that arithmetic excludes. *)
Ltac cmp :=
  repeat match goal with
  | |- context [N.leb ?a ?b] => destruct (N.leb_spec a b); try lia
  | |- context [N.ltb ?a ?b] => destruct (N.ltb_spec a b); try lia
  | |- context [N.eqb ?a ?b] => destruct (N.eqb_spec a b); try lia
  end; cbn [andb orb negb].

(** ** Hexadecimal text *)

Module HexFacts.
Import Hex.

Lemma digit_value_digit (d : N) : d < 16 -> digit_value (digit d) = Some d.
Proof.
  intros Hd. unfold digit, digit_value. cmp; f_equal; lia.
Qed.

Lemma is_space_digit (d : N) : d < 16 -> is_space (digit d) = false.
Proof. intros Hd. unfold digit, is_space. cmp; reflexivity. Qed.

Lemma digit_value_lt (c v : N) : digit_value c = Some v -> v < 16.
Proof.
  unfold digit_value. cmp; intros E; inversion E; lia.
Qed.

Lemma fromhex_hex (b : bytes) : fromhex (hex b) = Ok b.
Proof.
  induction b as [|x b IH]; [reflexivity|].
  pose proof (to_N_lt x) as Hx.
  assert (H1 : Byte.to_N x / 16 < 16) by lia.
  assert (H2 : Byte.to_N x mod 16 < 16) by lia.
  cbn [hex fromhex].
  rewrite (is_space_digit _ H1), (digit_value_digit _ H1),
    (digit_value_digit _ H2), IH.
  replace (Byte.to_N x / 16 * 16 + Byte.to_N x mod 16) with (Byte.to_N x) by lia.
  now rewrite byte_of_N_to_N.
Qed.

Lemma digit_lower (c v : N) : digit_value c = Some v -> digit v = lower_char c.
Proof.
  unfold digit_value. cmp; intros E; try discriminate; apply Some_inj in E; subst v;
    unfold digit, lower_char; cmp; lia.
Qed.

Lemma hexdigit_not_space (c : N) : is_hexdigit c = true -> is_space c = false.
Proof.
  unfold is_hexdigit, digit_value, is_space. cmp; try reflexivity; discriminate.
Qed.

Lemma is_hexdigit_value (c : N) :
  is_hexdigit c = true -> exists v, digit_value c = Some v.
Proof. unfold is_hexdigit. destruct (digit_value c); [eauto|discriminate]. Qed.

Lemma hex_pair (top bot : N) (r : bytes) :
  top < 16 -> bot < 16 ->
  hex (byte_of_N (top * 16 + bot) :: r) = digit top :: digit bot :: hex r.
Proof.
  intros Ht Hb. cbn [hex]. rewrite to_N_byte_of_N by lia.
  replace ((top * 16 + bot) / 16) with top by lia.
  replace ((top * 16 + bot) mod 16) with bot by lia.
  reflexivity.
Qed.

(** Induction following the recursion of [fromhex]. *)
Lemma fromhex_induction (Q : str -> Prop) :
  Q [] ->
  (forall c s, is_space c = true -> Q s -> Q (c :: s)) ->
  (forall c, is_space c = false -> Q [c]) ->
  (forall c1 c2 s, is_space c1 = false -> Q s -> Q (c1 :: c2 :: s)) ->
  forall s, Q s.
Proof.
  intros Hnil Hsp Hone Hpair.
  assert (H : forall n s, (List.length s <= n)%nat -> Q s).
  { induction n as [|n IH]; intros s Hs.
    - destruct s; [exact Hnil | cbn in Hs; lia].
    - destruct s as [|c s]; [exact Hnil|].
      destruct (is_space c) eqn:Ec.
      + apply Hsp; [exact Ec | apply IH; cbn in Hs; lia].
      + destruct s as [|c2 s]; [now apply Hone|].
        apply Hpair; [exact Ec | apply IH; cbn in Hs; lia]. }
  intros s. now apply (H (List.length s)).
Qed.

Lemma fromhex_space (c : N) (s : str) :
  is_space c = true -> fromhex (c :: s) = fromhex s.
Proof. intros E. cbn [fromhex]. now rewrite E. Qed.

Lemma fromhex_pair (c1 c2 : N) (s : str) :
  is_space c1 = false ->
  fromhex (c1 :: c2 :: s) =
  match digit_value c1, digit_value c2 with
  | Some top, Some bot =>
      match fromhex s with
      | Ok r => Ok (byte_of_N (top * 16 + bot) :: r)
      | Raise e => Raise e
      end
  | _, _ => Raise ValueError
  end.
Proof.
  intros E. cbn [fromhex]. rewrite E.
  destruct (digit_value c1); [|reflexivity].
  destruct (digit_value c2); reflexivity.
Qed.

Lemma fromhex_single (c : N) :
  is_space c = false -> fromhex [c] = Raise ValueError.
Proof. intros E. cbn [fromhex]. rewrite E. now destruct (digit_value c). Qed.

Lemma fromhex_outcome (s : str) :
  fromhex s = Raise ValueError \/ exists b, fromhex s = Ok b.
Proof.
  induction s as [| c s E IH | c E | c1 c2 s E IH] using fromhex_induction.
  - right. now exists [].
  - now rewrite fromhex_space.
  - left. now apply fromhex_single.
  - rewrite fromhex_pair by exact E.
    destruct (digit_value c1); [|now left].
    destruct (digit_value c2); [|now left].
    destruct IH as [-> | [b ->]]; [now left | right; eauto].
Qed.

Lemma fromhex_strip (s : str) :
  forall b, fromhex s = Ok b -> hex b = lowercase (strip s).
Proof.
  induction s as [| c s E IH | c E | c1 c2 s E IH] using fromhex_induction;
    intros b.
  - intros H. apply Ok_inj in H. now subst b.
  - rewrite fromhex_space by exact E. intros H.
    unfold strip. cbn [filter]. rewrite E. cbn [negb]. now apply IH.
  - rewrite fromhex_single by exact E. discriminate.
  - rewrite fromhex_pair by exact E.
    destruct (digit_value c1) as [top|] eqn:E1; [|discriminate].
    destruct (digit_value c2) as [bot|] eqn:E2; [|discriminate].
    destruct (fromhex s) as [r|] eqn:Er; [|discriminate].
    intros H. apply Ok_inj in H. subst b.
    rewrite hex_pair by (eapply digit_value_lt; eassumption).
    assert (E2' : is_space c2 = false).
    { apply hexdigit_not_space. unfold is_hexdigit. now rewrite E2. }
    unfold strip. cbn [filter]. rewrite E, E2'. cbn [negb lowercase map].
    rewrite (digit_lower _ _ E1), (digit_lower _ _ E2).
    do 2 f_equal. now apply IH.
Qed.

Lemma strip_no_space (s : str) : no_space s = true -> strip s = s.
Proof.
  unfold no_space, strip. induction s as [|c s IH]; [reflexivity|].
  cbn [forallb filter]. intros H. apply andb_true_iff in H as [H1 H2].
  rewrite H1. f_equal. now apply IH.
Qed.

Lemma valid_no_space (s : str) : valid s = true -> no_space s = true.
Proof.
  unfold valid, no_space. intros H. apply andb_true_iff in H as [_ H].
  induction s as [|c s IH]; [reflexivity|].
  cbn [forallb] in *. apply andb_true_iff in H as [H1 H2].
  rewrite (hexdigit_not_space _ H1). cbn. now apply IH.
Qed.

Lemma valid_malformed (s : str) : valid s = negb (malformed s).
Proof.
  unfold valid, malformed. rewrite negb_orb. f_equal.
  - now rewrite <- Nat.negb_even, negb_involutive.
  - induction s as [|c s IH]; [reflexivity|].
    cbn [forallb existsb]. rewrite negb_orb, negb_involutive. now f_equal.
Qed.

Lemma valid_cons2 (c1 c2 : N) (s : str) :
  valid (c1 :: c2 :: s) = is_hexdigit c1 && is_hexdigit c2 && valid s.
Proof.
  unfold valid. cbn [List.length forallb].
  change (Nat.even (S (S (List.length s)))) with (Nat.even (List.length s)).
  destruct (Nat.even (List.length s)), (is_hexdigit c1), (is_hexdigit c2); reflexivity.
Qed.

Lemma fromhex_no_space (s : str) :
  no_space s = true -> (fromhex s = Raise ValueError <-> valid s = false).
Proof.
  induction s as [| c s E IH | c E | c1 c2 s E IH] using fromhex_induction.
  - intros _. split; discriminate.
  - unfold no_space. cbn [forallb]. rewrite E. discriminate.
  - intros _. rewrite fromhex_single by exact E. split; [|reflexivity].
    intros _. unfold valid. reflexivity.
  - unfold no_space. cbn [forallb]. intros H.
    apply andb_true_iff in H as [_ H]. apply andb_true_iff in H as [_ H].
    specialize (IH H). rewrite fromhex_pair by exact E. rewrite valid_cons2.
    unfold is_hexdigit at 1 2.
    destruct (digit_value c1); [|split; reflexivity].
    destruct (digit_value c2); [|split; reflexivity].
    cbn [andb]. rewrite <- IH.
    destruct (fromhex s) as [r|e]; split; congruence.
Qed.

Lemma fromhex_accepted (s : str) :
  (exists b, fromhex s = Ok b) <-> accepted s.
Proof.
  induction s as [| c s E IH | c E | c1 c2 s E IH] using fromhex_induction.
  - split; [constructor | now exists []].
  - rewrite fromhex_space by exact E. rewrite IH. split; intros H.
    + now constructor.
    + inversion H as [| ? ? _ Hs | ? ? ? H1 _ _]; subst; [exact Hs|].
      apply hexdigit_not_space in H1. congruence.
  - rewrite fromhex_single by exact E. split.
    + intros [b H]. discriminate.
    + intros H. inversion H; congruence.
  - rewrite fromhex_pair by exact E. split.
    + intros [b H].
      destruct (digit_value c1) as [top|] eqn:E1; [|discriminate].
      destruct (digit_value c2) as [bot|] eqn:E2; [|discriminate].
      destruct (fromhex s) as [r|] eqn:Er; [|discriminate].
      apply accepted_pair; unfold is_hexdigit; try rewrite E1; try rewrite E2; auto.
      apply IH. eauto.
    + intros H. inversion H as [| ? ? Hc _ | ? ? ? H1 H2 Hs]; subst; [congruence|].
      apply is_hexdigit_value in H1 as [top ->].
      apply is_hexdigit_value in H2 as [bot ->].
      apply IH in Hs as [r ->]. eauto.
Qed.

Lemma hex_lower (b : bytes) : forallb is_lower_hexdigit (hex b) = true.
Proof.
  induction b as [|x b IH]; [reflexivity|].
  pose proof (to_N_lt x) as Hx. cbn [hex forallb]. rewrite IH.
  assert (H : forall d, d < 16 -> is_lower_hexdigit (digit d) = true).
  { intros d Hd. unfold digit. destruct (N.ltb_spec d 10);
      unfold is_lower_hexdigit; cmp; reflexivity. }
  rewrite !H by lia. reflexivity.
Qed.

Lemma hex_length (b : bytes) : List.length (hex b) = (2 * List.length b)%nat.
Proof. induction b as [|x b IH]; [reflexivity|]. cbn [hex List.length]. lia. Qed.

End HexFacts.

(** ** UTF-8 *)

Module Utf8Facts.
Import Utf8.

Lemma ltb_lt' (a b : N) : a < b -> (a <? b) = true.
Proof. apply N.ltb_lt. Qed.

Lemma ltb_ge' (a b : N) : b <= a -> (a <? b) = false.
Proof. apply N.ltb_ge. Qed.

Lemma in_range_true (lo hi n : N) : lo <= n <= hi -> in_range lo hi n = true.
Proof.
  intros [H1 H2]. unfold in_range. apply andb_true_intro.
  split; now apply N.leb_le.
Qed.

(** One step of [decode], by the length of the sequence. *)

Lemma decode1 (n : N) (rest : bytes) :
  n < 0x80 -> decode (byte_of_N n :: rest) = push n (decode rest).
Proof.
  intros H. cbn [decode]. rewrite to_N_byte_of_N by lia.
  rewrite ltb_lt' by lia. reflexivity.
Qed.

Lemma decode2 (n1 n2 : N) (rest : bytes) :
  0xC2 <= n1 < 0xE0 -> 0x80 <= n2 <= 0xBF ->
  decode (byte_of_N n1 :: byte_of_N n2 :: rest)
  = push (n1 mod 0x20 * 0x40 + n2 mod 0x40) (decode rest).
Proof.
  intros H1 H2. cbn [decode]. rewrite !to_N_byte_of_N by lia.
  rewrite (ltb_ge' n1 0x80), (ltb_ge' n1 0xC2), (ltb_lt' n1 0xE0) by lia.
  unfold is_cont. rewrite in_range_true by lia. reflexivity.
Qed.

Lemma decode3 (n1 n2 n3 : N) (rest : bytes) :
  0xE0 <= n1 < 0xF0 -> n2 < 256 -> n3 < 256 ->
  in_range (if n1 =? 0xE0 then 0xA0 else 0x80)
           (if n1 =? 0xED then 0x9F else 0xBF) n2 = true ->
  is_cont n3 = true ->
  decode (byte_of_N n1 :: byte_of_N n2 :: byte_of_N n3 :: rest)
  = push (n1 mod 0x10 * 0x1000 + n2 mod 0x40 * 0x40 + n3 mod 0x40)
         (decode rest).
Proof.
  intros H1 H2 H3 R2 R3. cbn [decode]. rewrite !to_N_byte_of_N by lia.
  rewrite (ltb_ge' n1 0x80), (ltb_ge' n1 0xC2), (ltb_ge' n1 0xE0),
    (ltb_lt' n1 0xF0) by lia.
  rewrite R2, R3. reflexivity.
Qed.

Lemma decode4 (n1 n2 n3 n4 : N) (rest : bytes) :
  0xF0 <= n1 < 0xF5 -> n2 < 256 -> n3 < 256 -> n4 < 256 ->
  in_range (if n1 =? 0xF0 then 0x90 else 0x80)
           (if n1 =? 0xF4 then 0x8F else 0xBF) n2 = true ->
  is_cont n3 = true -> is_cont n4 = true ->
  decode (byte_of_N n1 :: byte_of_N n2 :: byte_of_N n3 :: byte_of_N n4 :: rest)
  = push (n1 mod 0x8 * 0x40000 + n2 mod 0x40 * 0x1000 + n3 mod 0x40 * 0x40
          + n4 mod 0x40) (decode rest).
Proof.
  intros H1 H2 H3 H4 R2 R3 R4. cbn [decode]. rewrite !to_N_byte_of_N by lia.
  rewrite (ltb_ge' n1 0x80), (ltb_ge' n1 0xC2), (ltb_ge' n1 0xE0),
    (ltb_ge' n1 0xF0), (ltb_lt' n1 0xF5) by lia.
  rewrite R2, R3, R4. reflexivity.
Qed.

(** Decoding undoes the encoding of one code point, whatever follows. *)
Lemma decode_encode_char (c : codepoint) (b rest : bytes) :
  encode_char c = Ok b -> decode (b ++ rest) = push c (decode rest).
Proof.
  unfold encode_char, is_surrogate.
  destruct (N.ltb_spec c 0x80) as [L1|L1].
  { intros E; apply Ok_inj in E; subst b. now apply decode1. }
  destruct (N.ltb_spec c 0x800) as [L2|L2].
  { intros E; apply Ok_inj in E; subst b. cbn [app].
    rewrite decode2 by lia. f_equal. lia. }
  destruct (N.leb_spec 0xD800 c) as [S1|S1];
    destruct (N.leb_spec c 0xDFFF) as [S2|S2];
    cbn [andb]; try discriminate.
  all: destruct (N.ltb_spec c 0x10000) as [L3|L3]; try lia.
  all: try (intros E; apply Ok_inj in E; subst b; cbn [app];
            rewrite decode3;
            [ f_equal; lia | lia | lia | lia | | apply in_range_true; lia ];
            destruct (N.eqb_spec (0xE0 + c / 0x1000) 0xE0);
            destruct (N.eqb_spec (0xE0 + c / 0x1000) 0xED);
            apply in_range_true; lia).
  destruct (N.ltb_spec c 0x110000) as [L4|L4]; try discriminate.
  intros E; apply Ok_inj in E; subst b; cbn [app].
  rewrite decode4;
    [ f_equal; lia | lia | lia | lia | lia |
    | apply in_range_true; lia | apply in_range_true; lia ].
  destruct (N.eqb_spec (0xF0 + c / 0x40000) 0xF0);
    destruct (N.eqb_spec (0xF0 + c / 0x40000) 0xF4);
    apply in_range_true; lia.
Qed.

(** [s.encode().decode()] is [s]. *)
Lemma decode_encode (s : str) :
  forall b, encode s = Ok b -> decode b = Ok s.
Proof.
  induction s as [|c s IH]; intros b; cbn [encode].
  - intros E; apply Ok_inj in E; now subst b.
  - destruct (encode_char c) as [bc|] eqn:Ec; [|discriminate].
    destruct (encode s) as [r|] eqn:Er; [|discriminate].
    intros E; apply Ok_inj in E; subst b.
    rewrite (decode_encode_char _ _ _ Ec), (IH r eq_refl). reflexivity.
Qed.

Lemma encode_char_scalar (c : codepoint) :
  is_scalar c = true -> exists b, encode_char c = Ok b.
Proof.
  unfold is_scalar, encode_char. intros H.
  destruct (is_surrogate c); [now rewrite andb_false_r in H|].
  rewrite andb_true_r in H. rewrite H.
  destruct (c <? 0x80); [eauto|]. destruct (c <? 0x800); [eauto|].
  destruct (c <? 0x10000); eauto.
Qed.

End Utf8Facts.

(** ** Runs of the service *)

Section Runs.

Variable P : Primitive.

Lemma str_eqb_refl (s : str) : str_eqb s s = true.
Proof. unfold str_eqb. now destruct (list_eq_dec N.eq_dec s s). Qed.

Lemma str_eqb_neq (s t : str) : s <> t -> str_eqb s t = false.
Proof. intros H. unfold str_eqb. now destruct (list_eq_dec N.eq_dec s t). Qed.

Lemma verify_signature_run (message signature_hex public_key_hex : pyval)
  (signature public_key : bytes) (w : world P) :
  bytes_fromhex signature_hex = Ok signature ->
  bytes_fromhex public_key_hex = Ok public_key ->
  verify_signature P message signature_hex public_key_hex w
  = (Ok (verdict P message public_key signature),
     after_call P (CallVerify public_key signature) w (rng w)).
Proof.
  intros Hs Hk.
  unfold verify_signature, bind, lift, try_except, call_verify, ret, verdict.
  rewrite Hs, Hk.
  destruct (verify P public_key signature) as [original|e]; [|reflexivity].
  destruct (Utf8.decode original); reflexivity.
Qed.

Lemma verify_signature_raises (message signature_hex public_key_hex : pyval)
  (e : exn) (w : world P) :
  bytes_fromhex signature_hex = Raise e
  \/ (exists signature, bytes_fromhex signature_hex = Ok signature)
     /\ bytes_fromhex public_key_hex = Raise e ->
  verify_signature P message signature_hex public_key_hex w = (Raise e, w).
Proof.
  unfold verify_signature, bind, lift.
  intros [Hs | [[signature Hs] Hk]]; rewrite Hs; [reflexivity|].
  now rewrite Hk.
Qed.

Lemma sign_message_run (message secret_key_hex : pyval)
  (secret_key data : bytes) (w : world P) :
  bytes_fromhex secret_key_hex = Ok secret_key ->
  str_encode message = Ok data ->
  sign_message P message secret_key_hex w
  = (match fst (sign P secret_key data (rng w)) with
     | Ok signature => Ok (Hex.hex signature)
     | Raise e => Raise e
     end,
     after_call P (CallSign secret_key data) w (snd (sign P secret_key data (rng w)))).
Proof.
  intros Hk Hd. unfold sign_message, bind, lift, call_sign, ret.
  rewrite Hk, Hd.
  destruct (sign P secret_key data (rng w)) as [[signature|e] e']; reflexivity.
Qed.

Lemma sign_message_returns (message secret_key_hex : pyval) (sig_hex : str)
  (w w' : world P) :
  sign_message P message secret_key_hex w = (Ok sig_hex, w') ->
  exists secret_key data signature,
    bytes_fromhex secret_key_hex = Ok secret_key
    /\ str_encode message = Ok data
    /\ fst (sign P secret_key data (rng w)) = Ok signature
    /\ sig_hex = Hex.hex signature.
Proof.
  unfold sign_message, bind, lift, call_sign, ret.
  destruct (bytes_fromhex secret_key_hex) as [secret_key|]; [|discriminate].
  destruct (str_encode message) as [data|]; [|discriminate].
  destruct (sign P secret_key data (rng w)) as [[signature|e] e'] eqn:E;
    [|discriminate].
  intros [= <- _]. exists secret_key, data, signature. now rewrite E.
Qed.

Lemma generate_quantum_keypair_run (w : world P) :
  generate_quantum_keypair P w
  = (match fst (generate_keypair P (rng w)) with
     | Ok (public_key, secret_key) =>
         Ok [("public_key"%string, Hex.hex public_key);
             ("secret_key"%string, Hex.hex secret_key)]
     | Raise e => Raise e
     end,
     after_call P CallKeygen w (snd (generate_keypair P (rng w)))).
Proof.
  unfold generate_quantum_keypair, bind, call_generate_keypair, ret.
  destruct (generate_keypair P (rng w)) as [[[public_key secret_key]|e] e'];
    reflexivity.
Qed.

End Runs.


(** ** The library, called as the source calls it *)

Module LibraryFacts.

Lemma bytes_eqb_refl (a : bytes) : Transparent.bytes_eqb a a = true.
Proof.
  unfold Transparent.bytes_eqb.
  now destruct (list_eq_dec Byte.byte_eq_dec a a).
Qed.

(** Two positional arguments do not bind the three parameters of the
    library's [verify]: the call raises [TypeError] and nothing is
    checked. *)
Lemma call_verify_two (L : Library.t) (a b : pyval) :
  Library.call_verify L [a; b] = Raise TypeError.
Proof. reflexivity. Qed.

(** Three buffers reach the check. *)
Lemma call_verify_three (L : Library.t) (pk data sig : bytes) :
  Library.call_verify L [VBytes pk; VBytes data; VBytes sig]
  = match Library.verify L pk data sig with
    | Ok b => Ok (VBool b)
    | Raise e => Raise e
    end.
Proof. reflexivity. Qed.

Lemma verify_as_called (L : Library.t) (public_key signature : bytes) :
  verify (Library.as_called L) public_key signature = Raise TypeError.
Proof. reflexivity. Qed.

(** Line 28 therefore raises inside the [try] and line 31 answers [False],
    whatever the message, the signature and the key. *)
Lemma verify_signature_as_called (L : Library.t)
  (message signature_hex public_key_hex : pyval)
  (signature public_key : bytes) (w : world (Library.as_called L)) :
  bytes_fromhex signature_hex = Ok signature ->
  bytes_fromhex public_key_hex = Ok public_key ->
  verify_signature (Library.as_called L) message signature_hex public_key_hex w
  = (Ok false,
     after_call (Library.as_called L) (CallVerify public_key signature) w
       (rng w)).
Proof.
  intros Hs Hk.
  rewrite (verify_signature_run (Library.as_called L) message signature_hex
             public_key_hex signature public_key w Hs Hk).
  unfold verdict. now rewrite verify_as_called.
Qed.

(** What [sign_message] returned under a generated secret key: the hex
    encoding of a signature that the library's [verify] accepts for the
    octets of the message. *)
Lemma signed_then_accepted (L : Library.t) (pk sk : bytes) (m sig_hex : str)
  (w w' : world (Library.as_called L)) :
  Library.correct L -> Library.keypair_of L pk sk ->
  sign_message (Library.as_called L) m (Hex.hex sk) w = (Ok sig_hex, w') ->
  exists sig data,
    sig_hex = Hex.hex sig /\ Utf8.encode m = Ok data
    /\ Library.verify L pk data sig = Ok true.
Proof.
  intros Hcorrect Hkp Hrun.
  apply sign_message_returns in Hrun
    as (sk' & data & sig & Hk & Hd & Hsig & ->).
  cbn [bytes_fromhex] in Hk. rewrite HexFacts.fromhex_hex in Hk.
  apply Ok_inj in Hk. subst sk'.
  change (sign (Library.as_called L)) with (Library.sign L) in Hsig.
  destruct (Library.sign L sk data (rng w)) as [r e'] eqn:E.
  cbn [fst] in Hsig. subst r.
  exists sig, data. split; [reflexivity|]. split; [exact Hd|].
  exact (Hcorrect pk sk Hkp data (rng w) sig e' E).
Qed.

Lemma tag_length (key data : bytes) : List.length (Tagged.tag key data) = 4%nat.
Proof. reflexivity. Qed.

Lemma tagged_keypair (e : N) :
  Library.keypair_of Tagged.library (Transparent.key_of e)
    (Transparent.key_of e).
Proof. now exists e, (e + 1). Qed.

(** The detached instance is a correct scheme in the sense of section 8. *)
Lemma tagged_correct : Library.correct Tagged.library.
Proof.
  intros pk sk (e & e' & Hgen) data e0 sig e1 Hsig.
  change (Library.keygen Tagged.library e)
    with (Ok (Transparent.key_of e, Transparent.key_of e), e + 1) in Hgen.
  assert (Hpk : pk = Transparent.key_of e) by congruence.
  assert (Hsk : sk = Transparent.key_of e) by congruence.
  subst pk sk.
  change (Library.sign Tagged.library) with Tagged.sign_detached in Hsig.
  change (Library.verify Tagged.library) with Tagged.verify_detached.
  unfold Tagged.sign_detached in Hsig. unfold Tagged.verify_detached.
  change (List.length (Transparent.key_of e)) with 4%nat in *.
  cbn [Nat.eqb] in Hsig.
  assert (Hs : sig = Tagged.tag (Transparent.key_of e) data) by congruence.
  subst sig. rewrite tag_length. cbn [Nat.eqb andb].
  now rewrite bytes_eqb_refl.
Qed.


End LibraryFacts.

(** ** Signing, then verifying *)

(** C1. Sign/verify soundness fails in the source.  Whatever library of the
    shape the design describes the source runs on, correct in the sense
    [verify(pk, m, sign(sk, m)) == true]: for a pair [(pk, sk)] its key
    generation can return and a message [m], the signature
    [sign_message(m, sk.hex())] returns is one the library accepts for [m]
    under [pk], and [verify_signature] answers [False] for it all the same.
    Line 28 calls the library's [verify] with the public key and the
    signature only; the [TypeError] this raises is caught at line 30. *)
Theorem signed_message_rejected (L : Library.t) (pk sk : bytes)
  (m sig_hex : str) (w w' w2 : world (Library.as_called L)) :
  Library.correct L -> Library.keypair_of L pk sk ->
  sign_message (Library.as_called L) m (Hex.hex sk) w = (Ok sig_hex, w') ->
  exists sig data,
    sig_hex = Hex.hex sig /\ Utf8.encode m = Ok data
    /\ Library.call_verify L [VBytes pk; VBytes data; VBytes sig]
       = Ok (VBool true)
    /\ Library.call_verify L [VBytes pk; VBytes sig] = Raise TypeError
    /\ verify_signature (Library.as_called L) m sig_hex (Hex.hex pk) w2
       = (Ok false,
          after_call (Library.as_called L) (CallVerify pk sig) w2 (rng w2)).
Proof.
  intros Hcorrect Hkp Hrun.
  destruct (LibraryFacts.signed_then_accepted L pk sk m sig_hex w w'
              Hcorrect Hkp Hrun) as (sig & data & -> & Hd & Hv).
  exists sig, data. split; [reflexivity|]. split; [exact Hd|]. split; [|split].
  - now rewrite LibraryFacts.call_verify_three, Hv.
  - apply LibraryFacts.call_verify_two.
  - apply LibraryFacts.verify_signature_as_called; cbn [bytes_fromhex];
      apply HexFacts.fromhex_hex.
Qed.

(** The invoice of the example scenario, signed and then verified with the
    pair generated from a fresh state of the detached instance. *)
Lemma signed_message_rejected_witness :
  let L := Tagged.library in
  let k := Transparent.key_of 7 in
  let m := text "Invoice #12345" in
  let w := Tagged.start 7 in
  Library.correct L /\ Library.keypair_of L k k
  /\ exists sig_hex w',
       sign_message (Library.as_called L) m (Hex.hex k) w = (Ok sig_hex, w')
       /\ exists sig data,
            sig_hex = Hex.hex sig /\ Utf8.encode m = Ok data
            /\ Library.call_verify L [VBytes k; VBytes data; VBytes sig]
               = Ok (VBool true)
            /\ Library.call_verify L [VBytes k; VBytes sig] = Raise TypeError
            /\ verify_signature (Library.as_called L) m sig_hex (Hex.hex k) w
               = (Ok false,
                  after_call (Library.as_called L) (CallVerify k sig) w
                    (rng w)).
Proof.
  intros L k m w.
  split; [exact LibraryFacts.tagged_correct|].
  split; [exact (LibraryFacts.tagged_keypair 7)|].
  eexists. eexists. split; [reflexivity|].
  eapply (signed_message_rejected L k k m _ w _ w LibraryFacts.tagged_correct
           (LibraryFacts.tagged_keypair 7)).
  reflexivity.
Defined.

(** C8. Message-tamper rejection: whatever library of the shape the design
    describes the source runs on, for all buffers [pk], [sk] and distinct
    messages [m], [m'], verifying [m'] against the signature
    [sign_message(m, sk.hex())] returned, with [pk.hex()], returns
    [False]. *)
Theorem tamper_rejected (L : Library.t) (pk sk : bytes) (m m' : str) :
  m <> m' ->
  forall (w : world (Library.as_called L)) (sig_hex : str) w' w2,
    sign_message (Library.as_called L) m (Hex.hex sk) w = (Ok sig_hex, w') ->
    fst (verify_signature (Library.as_called L) m' sig_hex (Hex.hex pk) w2)
    = Ok false.
Proof.
  intros _ w sig_hex w' w2 Hrun.
  apply sign_message_returns in Hrun as (_ & _ & sig & _ & _ & _ & ->).
  now rewrite (LibraryFacts.verify_signature_as_called L m' (Hex.hex sig)
                 (Hex.hex pk) sig pk w2 (HexFacts.fromhex_hex sig)
                 (HexFacts.fromhex_hex pk)).
Qed.

(** The invoice signed, another invoice number presented. *)
Lemma tamper_rejected_witness :
  let P := Library.as_called Tagged.library in
  let k := Transparent.key_of 7 in
  let w := Tagged.start 7 in
  text "Invoice #12345" <> text "Invoice #12346"
  /\ exists sig_hex w',
       sign_message P (text "Invoice #12345") (Hex.hex k) w = (Ok sig_hex, w')
       /\ fst (verify_signature P (text "Invoice #12346") sig_hex (Hex.hex k) w)
          = Ok false.
Proof.
  intros P k w.
  assert (Hneq : text "Invoice #12345" <> text "Invoice #12346")
    by discriminate.
  split; [exact Hneq|].
  eexists. eexists. split; [reflexivity|].
  eapply (tamper_rejected Tagged.library k k (text "Invoice #12345")
           (text "Invoice #12346") Hneq w _ _ w).
  reflexivity.
Defined.

(** ** Verification *)

(** C9. Totality of verification after decoding: for every message and every
    [signature_hex] and [public_key_hex] that [bytes.fromhex] decodes,
    whatever the lengths of the buffers, [verify_signature] invokes the
    primitive's [verify] once and returns a boolean; an exception from
    [verify] or from decoding what it recovered is caught and gives
    [False]. *)
Theorem verify_signature_total (P : Primitive)
  (message signature_hex public_key_hex : pyval) (sig pk : bytes)
  (w : world P) :
  bytes_fromhex signature_hex = Ok sig ->
  bytes_fromhex public_key_hex = Ok pk ->
  exists b : bool,
    verify_signature P message signature_hex public_key_hex w
    = (Ok b, after_call P (CallVerify pk sig) w (rng w))
    /\ (forall e, verify P pk sig = Raise e -> b = false)
    /\ (forall original e,
          verify P pk sig = Ok original ->
          Utf8.decode original = Raise e -> b = false).
Proof.
  intros Hs Hk. exists (verdict P message pk sig). split.
  - now apply verify_signature_run.
  - unfold verdict. split.
    + intros e ->. reflexivity.
    + intros original e -> ->. reflexivity.
Qed.

(** A one-octet key and a one-octet signature: the primitive raises, the
    call returns. *)
Lemma verify_signature_total_witness :
  let P := Transparent.primitive in
  let w := Transparent.start 4 true 0 in
  exists b : bool,
    verify_signature P (text "hi") (text "ff") (text "00") w
    = (Ok b, after_call P (CallVerify [x00] [xff]) w (rng w))
    /\ (forall e, verify P [x00] [xff] = Raise e -> b = false)
    /\ (forall original e,
          verify P [x00] [xff] = Ok original ->
          Utf8.decode original = Raise e -> b = false).
Proof.
  cbv zeta.
  apply (verify_signature_total Transparent.primitive (text "hi") (text "ff")
           (text "00") [xff] [x00] (Transparent.start 4 true 0));
    reflexivity.
Defined.

(** C2, as the claim states it, fails: a public key of one octet, where the
    parameter set declares four, is handed to the primitive's [verify], and
    the call returns [False]; no structural error is raised. *)
Lemma verify_wrong_length_counterexample :
  let P := Transparent.primitive in
  bytes_fromhex (text "00") = Ok [x00]
  /\ List.length [x00] <> PK_LEN P
  /\ verify_signature P (text "hi") (text "000000076869") (text "00")
       (Transparent.start 4 true 0)
     = (Ok false,
        Build_world P 0 [CallVerify [x00] [x00; x00; x00; x07; x68; x69]]).
Proof. cbv zeta. split; [reflexivity|]. split; [discriminate | reflexivity]. Qed.

(** C2, amended. Verification makes no length check: when the public-key
    buffer's length differs from [PK_LEN] (and both hex strings decode), the
    buffer is passed to the primitive's [verify] as it is and the call
    returns a boolean, [False] if the primitive raises. *)
Theorem verify_signature_no_shape_check (P : Primitive) (message : pyval)
  (signature_hex public_key_hex : str) (sig pk : bytes) (w : world P) :
  Hex.fromhex signature_hex = Ok sig ->
  Hex.fromhex public_key_hex = Ok pk ->
  List.length pk <> PK_LEN P ->
  calls (snd (verify_signature P message signature_hex public_key_hex w))
  = calls w ++ [CallVerify pk sig]
  /\ exists b : bool,
       fst (verify_signature P message signature_hex public_key_hex w) = Ok b
       /\ (forall e, verify P pk sig = Raise e -> b = false).
Proof.
  intros Hs Hk _.
  rewrite (verify_signature_run P message signature_hex public_key_hex sig pk w
             Hs Hk).
  split; [reflexivity|]. exists (verdict P message pk sig).
  split; [reflexivity|]. intros e He. unfold verdict. now rewrite He.
Qed.

Lemma verify_signature_no_shape_check_witness :
  let P := Transparent.primitive in
  let run := verify_signature P (text "hi") (text "000000076869") (text "00")
               (Transparent.start 4 true 0) in
  calls (snd run) = [] ++ [CallVerify [x00] [x00; x00; x00; x07; x68; x69]]
  /\ exists b : bool,
       fst run = Ok b
       /\ (forall e, verify P [x00] [x00; x00; x00; x07; x68; x69] = Raise e ->
           b = false).
Proof.
  cbv zeta.
  apply (verify_signature_no_shape_check Transparent.primitive (text "hi")
           (text "000000076869") (text "00")
           [x00; x00; x00; x07; x68; x69] [x00] (Transparent.start 4 true 0)).
  - reflexivity.
  - reflexivity.
  - cbn. lia.
Defined.

(** C10, as the claim states it, fails: a signature string of odd length
    that starts with a space, and one with a space after its digits, are
    decoded, and the call returns a boolean. *)
Lemma verify_whitespace_counterexample :
  let P := Transparent.primitive in
  Hex.malformed (text " 000000076869") = true
  /\ verify_signature P (text "hi") (text " 000000076869") (text "00000007")
       (Transparent.start 4 true 0)
     = (Ok true,
        Build_world P 0
          [CallVerify [x00; x00; x00; x07] [x00; x00; x00; x07; x68; x69]])
  /\ Hex.malformed (text "00 ") = true
  /\ verify_signature P (text "hi") (text "00 ") (text "00000007")
       (Transparent.start 4 true 0)
     = (Ok false, Build_world P 0 [CallVerify [x00; x00; x00; x07] [x00]]).
Proof. cbv zeta. repeat split. Qed.

(** C10, amended. Decode-before-guard boundary: when [bytes.fromhex] rejects
    either hex string, [verify_signature] raises the [ValueError] to the
    caller and the primitive is not invoked; that is so in particular for a
    string without ASCII whitespace that has odd length or a character that
    is no hex digit.  When both strings decode, to buffers of whatever
    length, the call returns a boolean. *)
Theorem verify_signature_decode_boundary (P : Primitive) (message : pyval)
  (signature_hex public_key_hex : str) (w : world P) :
  (Hex.fromhex signature_hex = Raise ValueError
   \/ Hex.fromhex public_key_hex = Raise ValueError ->
   verify_signature P message signature_hex public_key_hex w
   = (Raise ValueError, w))
  /\ (Hex.no_space signature_hex = true /\ Hex.malformed signature_hex = true
      \/ Hex.no_space public_key_hex = true
         /\ Hex.malformed public_key_hex = true ->
      verify_signature P message signature_hex public_key_hex w
      = (Raise ValueError, w))
  /\ (forall sig pk,
        Hex.fromhex signature_hex = Ok sig ->
        Hex.fromhex public_key_hex = Ok pk ->
        exists b : bool,
          verify_signature P message signature_hex public_key_hex w
          = (Ok b, after_call P (CallVerify pk sig) w (rng w))).
Proof.
  assert (A : Hex.fromhex signature_hex = Raise ValueError
              \/ Hex.fromhex public_key_hex = Raise ValueError ->
              verify_signature P message signature_hex public_key_hex w
              = (Raise ValueError, w)).
  { intros H. apply verify_signature_raises. cbn [bytes_fromhex].
    destruct (HexFacts.fromhex_outcome signature_hex) as [Hs | Hs];
      [now left|].
    destruct H as [H|H]; [now left | now right]. }
  split; [exact A|]. split.
  - intros H. apply A.
    destruct H as [[Hn Hm]|[Hn Hm]]; [left|right];
      apply (HexFacts.fromhex_no_space _ Hn);
      rewrite HexFacts.valid_malformed, Hm; reflexivity.
  - intros sig pk Hs Hk. exists (verdict P message pk sig).
    now apply verify_signature_run.
Qed.

(** An odd-length signature string, then a well-formed one under a
    public-key string with a letter that is no hex digit. *)
Lemma verify_signature_decode_boundary_witness :
  let P := Transparent.primitive in
  let w := Transparent.start 4 true 0 in
  verify_signature P (text "hi") (text "abc") (text "00000007") w
  = (Raise ValueError, w)
  /\ verify_signature P (text "hi") (text "000000076869") (text "0000000g") w
     = (Raise ValueError, w).
Proof.
  cbv zeta. split.
  - apply (proj1 (verify_signature_decode_boundary Transparent.primitive
                    (text "hi") (text "abc") (text "00000007")
                    (Transparent.start 4 true 0))).
    left. reflexivity.
  - apply (proj1 (proj2 (verify_signature_decode_boundary Transparent.primitive
                           (text "hi") (text "000000076869") (text "0000000g")
                           (Transparent.start 4 true 0)))).
    right. split; reflexivity.
Defined.

(** ** Key generation *)

(** C6, as the claim states it, fails: a build whose parameter set declares
    eight-octet keys while its key generation returns four-octet ones is
    not rejected; the record is returned. *)
Lemma keygen_mismatch_counterexample :
  let P := Transparent.mismatched in
  generate_keypair P 7 = (Ok (Transparent.key_of 7, Transparent.key_of 7), 8)
  /\ List.length (Transparent.key_of 7) <> PK_LEN P
  /\ List.length (Transparent.key_of 7) <> SK_LEN P
  /\ generate_quantum_keypair P (Transparent.start 8 true 7)
     = (Ok [("public_key"%string, text "00000007");
            ("secret_key"%string, text "00000007")],
        Build_world P 8 [CallKeygen]).
Proof.
  cbv zeta. split; [reflexivity|]. split; [discriminate|].
  split; [discriminate | reflexivity].
Qed.

(** C6, amended. [generate_quantum_keypair] calls the primitive's key
    generation once and makes no length check: whatever buffers it returns,
    the call returns the record of their hex encodings, from which
    [bytes.fromhex] gives the buffers back unchanged; what the primitive
    raises propagates. *)
Theorem generate_quantum_keypair_delegates (P : Primitive) (w : world P) :
  (forall pk sk e,
     generate_keypair P (rng w) = (Ok (pk, sk), e) ->
     generate_quantum_keypair P w
     = (Ok [("public_key"%string, Hex.hex pk);
            ("secret_key"%string, Hex.hex sk)],
        after_call P CallKeygen w e)
     /\ Hex.fromhex (Hex.hex pk) = Ok pk
     /\ Hex.fromhex (Hex.hex sk) = Ok sk)
  /\ (forall x e,
        generate_keypair P (rng w) = (Raise x, e) ->
        generate_quantum_keypair P w = (Raise x, after_call P CallKeygen w e)).
Proof.
  split.
  - intros pk sk e H. rewrite generate_quantum_keypair_run, H. cbn [fst snd].
    now rewrite !HexFacts.fromhex_hex.
  - intros x e H. now rewrite generate_quantum_keypair_run, H.
Qed.

Lemma generate_quantum_keypair_delegates_witness :
  let P := Transparent.mismatched in
  let k := Transparent.key_of 7 in
  generate_quantum_keypair P (Transparent.start 8 true 7)
  = (Ok [("public_key"%string, Hex.hex k); ("secret_key"%string, Hex.hex k)],
     after_call P CallKeygen (Transparent.start 8 true 7) 8)
  /\ Hex.fromhex (Hex.hex k) = Ok k
  /\ Hex.fromhex (Hex.hex k) = Ok k.
Proof.
  cbv zeta.
  apply (proj1 (generate_quantum_keypair_delegates Transparent.mismatched
                  (Transparent.start 8 true 7))).
  reflexivity.
Defined.

(** ** Signing *)



(** ** Context tags *)

Lemma lookup_other (k k' : string) (v : pyval) (env : environment) :
  String.eqb k' k = false -> lookup k ((k', v) :: env) = lookup k env.
Proof. intros E. cbn [lookup]. now rewrite E. Qed.

Lemma mem_eqb (k k' : string) (params : list string) :
  mem k params = false -> mem k' params = true -> String.eqb k' k = false.
Proof.
  intros Hk Hk'. destruct (String.eqb_spec k' k) as [->|]; [|reflexivity].
  congruence.
Qed.

Lemma bind_keywords_unknown (params : list string) (k : string) :
  mem k params = false ->
  forall kwargs env,
    lookup k kwargs <> None -> bind_keywords params env kwargs = Raise TypeError.
Proof.
  intros Hk. induction kwargs as [|[k' v] kwargs IH]; intros env Hin.
  - now elim Hin.
  - cbn [bind_keywords].
    destruct (mem k' params) eqn:Ek'; [|reflexivity]. cbn [negb].
    destruct (lookup k' env); [reflexivity|].
    apply IH.
    now rewrite (lookup_other k k' v kwargs (mem_eqb _ _ _ Hk Ek')) in Hin.
Qed.

Lemma bind_arguments_rejects (params : list string) (k : string)
  (args : list pyval) (kwargs : environment) :
  mem k params = false ->
  lookup k kwargs <> None \/ (List.length params < List.length args)%nat ->
  bind_arguments params args kwargs = Raise TypeError.
Proof.
  intros Hk H. unfold bind_arguments.
  destruct (Nat.ltb_spec (List.length params) (List.length args)) as [Hl|Hl];
    [reflexivity|].
  destruct H as [H|H]; [|lia].
  now rewrite (bind_keywords_unknown params k Hk kwargs _ H).
Qed.

(** C3, as the claim states it, fails: [sign_message] takes no context.
    A call with a context tag, by keyword or as a third argument, raises a
    [TypeError] and signs nothing; the signature made without one cannot be
    verified with a context either, that call raises too rather than
    returning [False]. *)
Lemma context_counterexample :
  let P := Transparent.primitive in
  let w := Transparent.start 4 true 0 in
  let m := VStr (text "hi") in
  let k := VStr (text "00000007") in
  let c1 := VBytes [x01] in
  let c2 := VBytes [x02] in
  apply_sign_message P [m; k] [("context"%string, c1)] w = (Raise TypeError, w)
  /\ apply_sign_message P [m; k; c1] [] w = (Raise TypeError, w)
  /\ apply_sign_message P [m; k] [] w
     = (Ok (text "000000076869"),
        Build_world P 0 [CallSign [x00; x00; x00; x07] [x68; x69]])
  /\ apply_verify_signature P [m; VStr (text "000000076869"); k]
       [("context"%string, c2)] w = (Raise TypeError, w).
Proof. cbv zeta. repeat split. Qed.

(** C3, amended. Neither [sign_message] nor [verify_signature] has a context
    parameter: a call that passes one, as the keyword [context] or as an
    extra positional argument, raises a [TypeError] before anything is
    decoded or signed; and what [sign_message] hands to the primitive is
    the UTF-8 encoding of the message alone, with nothing in front of it. *)
Theorem no_context_parameter (P : Primitive) (args : list pyval)
  (kwargs : environment) (w : world P) :
  (lookup "context" kwargs <> None \/ (2 < List.length args)%nat ->
   apply_sign_message P args kwargs w = (Raise TypeError, w))
  /\ (lookup "context" kwargs <> None \/ (3 < List.length args)%nat ->
      apply_verify_signature P args kwargs w = (Raise TypeError, w))
  /\ (forall (m secret_key_hex : str) sk data,
        Hex.fromhex secret_key_hex = Ok sk ->
        Utf8.encode m = Ok data ->
        calls (snd (apply_sign_message P [VStr m; VStr secret_key_hex] [] w))
        = calls w ++ [CallSign sk data]).
Proof.
  split; [|split].
  - intros H. unfold apply_sign_message, bind, lift.
    now rewrite (bind_arguments_rejects ["message"; "secret_key_hex"]%string
                   "context" args kwargs eq_refl H).
  - intros H. unfold apply_verify_signature, bind, lift.
    now rewrite (bind_arguments_rejects
                   ["message"; "signature_hex"; "public_key_hex"]%string
                   "context" args kwargs eq_refl H).
  - intros m secret_key_hex sk data Hk Hd.
    change (apply_sign_message P [VStr m; VStr secret_key_hex] [] w)
      with (sign_message P m secret_key_hex w).
    now rewrite (sign_message_run P m secret_key_hex sk data w Hk Hd).
Qed.

Lemma no_context_parameter_witness :
  let P := Transparent.primitive in
  let w := Transparent.start 4 true 0 in
  apply_sign_message P [VStr (text "hi"); VStr (text "00000007")]
    [("context"%string, VBytes [x01])] w = (Raise TypeError, w)
  /\ apply_verify_signature P
       [VStr (text "hi"); VStr (text "000000076869"); VStr (text "00000007");
        VBytes [x02]] [] w = (Raise TypeError, w)
  /\ calls (snd (apply_sign_message P
                   [VStr (text "hi"); VStr (text "00000007")] [] w))
     = [] ++ [CallSign [x00; x00; x00; x07] [x68; x69]].
Proof.
  cbv zeta. split; [|split].
  - apply (proj1 (no_context_parameter Transparent.primitive
                    [VStr (text "hi"); VStr (text "00000007")]
                    [("context"%string, VBytes [x01])]
                    (Transparent.start 4 true 0))).
    left. discriminate.
  - apply (proj1 (proj2 (no_context_parameter Transparent.primitive
                           [VStr (text "hi"); VStr (text "000000076869");
                            VStr (text "00000007"); VBytes [x02]] []
                           (Transparent.start 4 true 0)))).
    right. cbn. lia.
  - apply (proj2 (proj2 (no_context_parameter Transparent.primitive [] []
                           (Transparent.start 4 true 0)))
             (text "hi") (text "00000007")); reflexivity.
Defined.

(** ** The encoding layer *)

(** C4. Hex round trip: [bytes.fromhex(b.hex())] is [b] for every byte
    sequence [b], and for every valid hex string [s] (even length, every
    character in [0-9a-fA-F]) [bytes.fromhex(s).hex()] is [s] in lower
    case. *)
Theorem hex_round_trip :
  (forall b : bytes, Hex.fromhex (Hex.hex b) = Ok b)
  /\ (forall s : str,
        Hex.valid s = true ->
        exists b, Hex.fromhex s = Ok b /\ Hex.hex b = Hex.lowercase s).
Proof.
  split; [exact HexFacts.fromhex_hex|].
  intros s Hv.
  pose proof (HexFacts.valid_no_space s Hv) as Hn.
  destruct (HexFacts.fromhex_outcome s) as [Hr | [b Hb]].
  - apply (HexFacts.fromhex_no_space s Hn) in Hr. congruence.
  - exists b. split; [exact Hb|].
    rewrite (HexFacts.fromhex_strip s b Hb).
    now rewrite (HexFacts.strip_no_space s Hn).
Qed.

Lemma hex_round_trip_witness :
  Hex.valid (text "00FF1a") = true
  /\ exists b, Hex.fromhex (text "00FF1a") = Ok b
               /\ Hex.hex b = Hex.lowercase (text "00FF1a").
Proof.
  split; [reflexivity|].
  apply (proj2 hex_round_trip (text "00FF1a")). reflexivity.
Defined.

(** C5, as the claim states it, fails: a single space has odd length and
    holds a character that is no hex digit, and decodes, to the empty
    buffer; so does ["00 ff"], to two octets. *)
Lemma fromhex_whitespace_counterexample :
  Hex.malformed (text " ") = true /\ Hex.fromhex (text " ") = Ok []
  /\ Hex.malformed (text "00 ff") = true
  /\ Hex.fromhex (text "00 ff") = Ok [x00; xff].
Proof. repeat split. Qed.

(** C5, amended. Decoding errors: [bytes.fromhex] fails, with a
    [ValueError], exactly on the strings that are not a sequence of
    hex-digit pairs with ASCII whitespace allowed in front of a pair and at
    the end; on a string without ASCII whitespace that is exactly when it
    has odd length or holds a character outside [0-9a-fA-F].  It never
    truncates or pads: a decoded buffer re-encodes to the input in lower
    case, whitespace dropped.  Encoded output is lowercase, two digits to
    the octet. *)
Theorem fromhex_errors (s : str) :
  (Hex.fromhex s = Raise ValueError <-> ~ Hex.accepted s)
  /\ (Hex.no_space s = true ->
      (Hex.fromhex s = Raise ValueError <-> Hex.malformed s = true))
  /\ (forall b, Hex.fromhex s = Ok b -> Hex.hex b = Hex.lowercase (Hex.strip s))
  /\ (forall b : bytes,
        forallb Hex.is_lower_hexdigit (Hex.hex b) = true
        /\ List.length (Hex.hex b) = (2 * List.length b)%nat).
Proof.
  split; [|split; [|split]].
  - rewrite <- HexFacts.fromhex_accepted. split.
    + intros Hr [b Hb]. congruence.
    + intros Hn. destruct (HexFacts.fromhex_outcome s) as [Hr | Hb];
        [exact Hr | now elim Hn].
  - intros Hn.
    rewrite (HexFacts.fromhex_no_space s Hn), HexFacts.valid_malformed.
    destruct (Hex.malformed s); cbn; split; congruence.
  - apply HexFacts.fromhex_strip.
  - intros b. split; [apply HexFacts.hex_lower | apply HexFacts.hex_length].
Qed.

(** The odd-length string of the malformed-input example, and a string with
    whitespace between its pairs. *)
Lemma fromhex_errors_witness :
  (Hex.fromhex (text "abc") = Raise ValueError
   <-> Hex.malformed (text "abc") = true)
  /\ Hex.hex [x00; xff] = Hex.lowercase (Hex.strip (text "00 FF")).
Proof.
  split.
  - apply (proj1 (proj2 (fromhex_errors (text "abc")))). reflexivity.
  - apply (proj1 (proj2 (proj2 (fromhex_errors (text "00 FF"))))).
    reflexivity.
Defined.

(** * Further properties *)

(** ** UTF-8, the other way round *)

Module Utf8More.
Import Utf8 Utf8Facts.

Lemma byte_of_value (x : byte) (n : N) : n = Byte.to_N x -> byte_of_N n = x.
Proof. intros ->. apply byte_of_N_to_N. Qed.

Lemma in_range_bounds (lo hi n : N) : in_range lo hi n = true -> lo <= n <= hi.
Proof.
  unfold in_range. intros H. apply andb_true_iff in H as [H1 H2].
  apply N.leb_le in H1, H2. lia.
Qed.

Lemma encode_cons (c : codepoint) (s : str) (b r : bytes) :
  encode_char c = Ok b -> encode s = Ok r -> encode (c :: s) = Ok (b ++ r).
Proof. intros Hc Hs. cbn [encode]. now rewrite Hc, Hs. Qed.

Lemma push_ok (c : codepoint) (r : result str) (s : str) :
  push c r = Ok s -> exists s', r = Ok s' /\ s = c :: s'.
Proof.
  destruct r as [s'|e]; cbn [push]; [|discriminate].
  intros H. apply Ok_inj in H. eauto.
Qed.

Lemma encode_char1 (x1 : byte) :
  Byte.to_N x1 < 0x80 -> encode_char (Byte.to_N x1) = Ok [x1].
Proof.
  intros H. unfold encode_char. rewrite ltb_lt' by lia.
  now rewrite byte_of_N_to_N.
Qed.

Lemma div_mod_pair (q r d : N) :
  r < d -> (q * d + r) / d = q /\ (q * d + r) mod d = r.
Proof.
  intros H. split; symmetry.
  - apply (N.div_unique _ d q r); lia.
  - apply (N.mod_unique _ d q r); lia.
Qed.

(** The six-bit groups of a value written in base 64. *)
Lemma groups2 (a b : N) :
  b < 0x40 ->
  (a * 0x40 + b) / 0x40 = a /\ (a * 0x40 + b) mod 0x40 = b.
Proof. apply div_mod_pair. Qed.

Lemma groups3 (a b d : N) :
  b < 0x40 -> d < 0x40 ->
  (a * 0x1000 + b * 0x40 + d) / 0x1000 = a
  /\ (a * 0x1000 + b * 0x40 + d) / 0x40 mod 0x40 = b
  /\ (a * 0x1000 + b * 0x40 + d) mod 0x40 = d.
Proof.
  intros Hb Hd.
  replace (a * 0x1000 + b * 0x40 + d) with ((a * 0x40 + b) * 0x40 + d) by lia.
  destruct (div_mod_pair (a * 0x40 + b) d 0x40 Hd) as [Q R].
  destruct (div_mod_pair a b 0x40 Hb) as [Q' R'].
  assert (E : ((a * 0x40 + b) * 0x40 + d) / 0x1000 = (a * 0x40 + b) / 0x40).
  { rewrite <- Q at 2. now rewrite N.Div0.div_div. }
  rewrite E, Q, R. auto.
Qed.

Lemma groups4 (a b d e : N) :
  b < 0x40 -> d < 0x40 -> e < 0x40 ->
  (a * 0x40000 + b * 0x1000 + d * 0x40 + e) / 0x40000 = a
  /\ (a * 0x40000 + b * 0x1000 + d * 0x40 + e) / 0x1000 mod 0x40 = b
  /\ (a * 0x40000 + b * 0x1000 + d * 0x40 + e) / 0x40 mod 0x40 = d
  /\ (a * 0x40000 + b * 0x1000 + d * 0x40 + e) mod 0x40 = e.
Proof.
  intros Hb Hd He.
  replace (a * 0x40000 + b * 0x1000 + d * 0x40 + e)
    with ((a * 0x1000 + b * 0x40 + d) * 0x40 + e) by lia.
  destruct (div_mod_pair (a * 0x1000 + b * 0x40 + d) e 0x40 He) as [Q R].
  destruct (groups3 a b d Hb Hd) as (G1 & G2 & G3).
  set (x := a * 0x1000 + b * 0x40 + d) in *.
  assert (E1 : (x * 0x40 + e) / 0x40000 = x / 0x1000).
  { rewrite <- Q at 2. now rewrite N.Div0.div_div. }
  assert (E2 : (x * 0x40 + e) / 0x1000 = x / 0x40).
  { rewrite <- Q at 2. now rewrite N.Div0.div_div. }
  rewrite E1, E2, Q, R. auto.
Qed.

Lemma not_surrogate (c : N) :
  c < 0xD800 \/ 0xDFFF < c -> is_surrogate c = false.
Proof.
  intros H. unfold is_surrogate.
  destruct (N.leb_spec 0xD800 c); destruct (N.leb_spec c 0xDFFF);
    cbn [andb]; try reflexivity; lia.
Qed.

Lemma encode_groups2 (a b : N) :
  2 <= a < 0x20 -> b < 0x40 ->
  encode_char (a * 0x40 + b)
  = Ok [byte_of_N (0xC0 + a); byte_of_N (0x80 + b)].
Proof.
  intros Ha Hb. destruct (groups2 a b Hb) as [G1 G2].
  unfold encode_char.
  rewrite (ltb_ge' _ 0x80), (ltb_lt' _ 0x800) by lia.
  now rewrite G1, G2.
Qed.

Lemma encode_groups3 (a b d : N) :
  a < 0x10 -> b < 0x40 -> d < 0x40 ->
  (a = 0 -> 0x20 <= b) -> (a = 0xD -> b < 0x20) ->
  encode_char (a * 0x1000 + b * 0x40 + d)
  = Ok [byte_of_N (0xE0 + a); byte_of_N (0x80 + b); byte_of_N (0x80 + d)].
Proof.
  intros Ha Hb Hd H0 HD. destruct (groups3 a b d Hb Hd) as (G1 & G2 & G3).
  unfold encode_char.
  rewrite (ltb_ge' _ 0x80), (ltb_ge' _ 0x800), not_surrogate,
    (ltb_lt' _ 0x10000) by lia.
  now rewrite G1, G2, G3.
Qed.

Lemma encode_groups4 (a b d e : N) :
  a < 0x5 -> b < 0x40 -> d < 0x40 -> e < 0x40 ->
  (a = 0 -> 0x10 <= b) -> (a = 4 -> b < 0x10) ->
  encode_char (a * 0x40000 + b * 0x1000 + d * 0x40 + e)
  = Ok [byte_of_N (0xF0 + a); byte_of_N (0x80 + b); byte_of_N (0x80 + d);
        byte_of_N (0x80 + e)].
Proof.
  intros Ha Hb Hd He H0 H4.
  destruct (groups4 a b d e Hb Hd He) as (G1 & G2 & G3 & G4).
  unfold encode_char.
  rewrite (ltb_ge' _ 0x80), (ltb_ge' _ 0x800), not_surrogate,
    (ltb_ge' _ 0x10000), (ltb_lt' _ 0x110000) by lia.
  now rewrite G1, G2, G3, G4.
Qed.

(** An octet in a range, as an offset from the bottom of the range. *)
Lemma offset (n lo : N) : lo <= n -> exists k, n = lo + k.
Proof. intros H. exists (n - lo). lia. Qed.

Lemma encode_char2 (x1 x2 : byte) :
  0xC2 <= Byte.to_N x1 < 0xE0 -> is_cont (Byte.to_N x2) = true ->
  encode_char (Byte.to_N x1 mod 0x20 * 0x40 + Byte.to_N x2 mod 0x40)
  = Ok [x1; x2].
Proof.
  intros H1 H2. apply in_range_bounds in H2.
  destruct (offset _ 0xC0 (N.le_trans _ _ _ (N.lt_le_incl 0xC0 0xC2 eq_refl)
                             (proj1 H1))) as [a Ea].
  destruct (offset _ 0x80 (proj1 H2)) as [b Eb].
  rewrite Ea in H1. rewrite Eb in H2. rewrite Ea, Eb.
  replace ((0xC0 + a) mod 0x20) with a
    by (apply (N.mod_unique _ 0x20 6 a); lia).
  replace ((0x80 + b) mod 0x40) with b
    by (apply (N.mod_unique _ 0x40 2 b); lia).
  rewrite encode_groups2 by lia.
  now rewrite <- Ea, <- Eb, !byte_of_N_to_N.
Qed.

Lemma encode_char3 (x1 x2 x3 : byte) :
  0xE0 <= Byte.to_N x1 < 0xF0 ->
  in_range (if Byte.to_N x1 =? 0xE0 then 0xA0 else 0x80)
           (if Byte.to_N x1 =? 0xED then 0x9F else 0xBF) (Byte.to_N x2) = true ->
  is_cont (Byte.to_N x3) = true ->
  encode_char (Byte.to_N x1 mod 0x10 * 0x1000 + Byte.to_N x2 mod 0x40 * 0x40
               + Byte.to_N x3 mod 0x40)
  = Ok [x1; x2; x3].
Proof.
  intros H1 H2 H3. apply in_range_bounds in H2, H3.
  destruct (offset _ 0xE0 (proj1 H1)) as [a Ea].
  assert (B2 : 0x80 <= Byte.to_N x2).
  { revert H2. destruct (Byte.to_N x1 =? 0xE0); lia. }
  destruct (offset _ 0x80 B2) as [b Eb].
  destruct (offset _ 0x80 (proj1 H3)) as [d Ed].
  rewrite Ea in H1, H2. rewrite Eb in H2. rewrite Ed in H3.
  rewrite Ea, Eb, Ed.
  assert (Hb : b < 0x40 /\ (a = 0 -> 0x20 <= b) /\ (a = 0xD -> b < 0x20)).
  { revert H2.
    destruct (N.eqb_spec (0xE0 + a) 0xE0); destruct (N.eqb_spec (0xE0 + a) 0xED);
      lia. }
  replace ((0xE0 + a) mod 0x10) with a
    by (apply (N.mod_unique _ 0x10 14 a); lia).
  replace ((0x80 + b) mod 0x40) with b
    by (apply (N.mod_unique _ 0x40 2 b); lia).
  replace ((0x80 + d) mod 0x40) with d
    by (apply (N.mod_unique _ 0x40 2 d); lia).
  rewrite encode_groups3 by lia.
  now rewrite <- Ea, <- Eb, <- Ed, !byte_of_N_to_N.
Qed.

Lemma encode_char4 (x1 x2 x3 x4 : byte) :
  0xF0 <= Byte.to_N x1 < 0xF5 ->
  in_range (if Byte.to_N x1 =? 0xF0 then 0x90 else 0x80)
           (if Byte.to_N x1 =? 0xF4 then 0x8F else 0xBF) (Byte.to_N x2) = true ->
  is_cont (Byte.to_N x3) = true -> is_cont (Byte.to_N x4) = true ->
  encode_char (Byte.to_N x1 mod 0x8 * 0x40000 + Byte.to_N x2 mod 0x40 * 0x1000
               + Byte.to_N x3 mod 0x40 * 0x40 + Byte.to_N x4 mod 0x40)
  = Ok [x1; x2; x3; x4].
Proof.
  intros H1 H2 H3 H4. apply in_range_bounds in H2, H3, H4.
  destruct (offset _ 0xF0 (proj1 H1)) as [a Ea].
  assert (B2 : 0x80 <= Byte.to_N x2).
  { revert H2. destruct (Byte.to_N x1 =? 0xF0); lia. }
  destruct (offset _ 0x80 B2) as [b Eb].
  destruct (offset _ 0x80 (proj1 H3)) as [d Ed].
  destruct (offset _ 0x80 (proj1 H4)) as [e Ee].
  rewrite Ea in H1, H2. rewrite Eb in H2. rewrite Ed in H3. rewrite Ee in H4.
  rewrite Ea, Eb, Ed, Ee.
  assert (Hb : b < 0x40 /\ (a = 0 -> 0x10 <= b) /\ (a = 4 -> b < 0x10)).
  { revert H2.
    destruct (N.eqb_spec (0xF0 + a) 0xF0); destruct (N.eqb_spec (0xF0 + a) 0xF4);
      lia. }
  replace ((0xF0 + a) mod 0x8) with a
    by (apply (N.mod_unique _ 0x8 30 a); lia).
  replace ((0x80 + b) mod 0x40) with b
    by (apply (N.mod_unique _ 0x40 2 b); lia).
  replace ((0x80 + d) mod 0x40) with d
    by (apply (N.mod_unique _ 0x40 2 d); lia).
  replace ((0x80 + e) mod 0x40) with e
    by (apply (N.mod_unique _ 0x40 2 e); lia).
  rewrite encode_groups4 by lia.
  now rewrite <- Ea, <- Eb, <- Ed, <- Ee, !byte_of_N_to_N.
Qed.

(** [b.decode().encode()] is [b]: strict decoding takes the one encoding
    of each code point only. *)
Lemma encode_decode (n : nat) :
  forall (b : bytes) (s : str),
    (List.length b <= n)%nat -> decode b = Ok s -> encode s = Ok b.
Proof.
  induction n as [|n IH]; intros b s Hlen.
  { destruct b; [|cbn in Hlen; lia]. cbn [decode]. intros H.
    apply Ok_inj in H. now subst s. }
  destruct b as [|x1 t1].
  { cbn [decode]. intros H. apply Ok_inj in H. now subst s. }
  cbn [List.length] in Hlen. cbn [decode].
  destruct (N.ltb_spec (Byte.to_N x1) 0x80) as [L1|L1].
  { intros H. apply push_ok in H as (s' & Hd & ->).
    apply (encode_cons _ _ [x1] t1).
    - now apply encode_char1.
    - apply IH; [lia | exact Hd]. }
  destruct (N.ltb_spec (Byte.to_N x1) 0xC2) as [L2|L2]; [discriminate|].
  destruct (N.ltb_spec (Byte.to_N x1) 0xE0) as [L3|L3].
  { destruct t1 as [|x2 t2]; [discriminate|].
    destruct (is_cont (Byte.to_N x2)) eqn:C2; [|discriminate].
    intros H. apply push_ok in H as (s' & Hd & ->).
    apply (encode_cons _ _ [x1; x2] t2).
    - apply encode_char2; [lia | exact C2].
    - apply IH; [cbn [List.length] in Hlen; lia | exact Hd]. }
  destruct (N.ltb_spec (Byte.to_N x1) 0xF0) as [L4|L4].
  { destruct t1 as [|x2 [|x3 t3]]; try discriminate.
    destruct (in_range _ _ (Byte.to_N x2)) eqn:C2; [|discriminate].
    destruct (is_cont (Byte.to_N x3)) eqn:C3; [|discriminate].
    cbn [andb]. intros H. apply push_ok in H as (s' & Hd & ->).
    apply (encode_cons _ _ [x1; x2; x3] t3).
    - apply encode_char3; [lia | exact C2 | exact C3].
    - apply IH; [cbn [List.length] in Hlen; lia | exact Hd]. }
  destruct (N.ltb_spec (Byte.to_N x1) 0xF5) as [L5|L5]; [|discriminate].
  destruct t1 as [|x2 [|x3 [|x4 t4]]]; try discriminate.
  destruct (in_range _ _ (Byte.to_N x2)) eqn:C2; [|discriminate].
  destruct (is_cont (Byte.to_N x3)) eqn:C3; [|discriminate].
  destruct (is_cont (Byte.to_N x4)) eqn:C4; [|discriminate].
  cbn [andb]. intros H. apply push_ok in H as (s' & Hd & ->).
  apply (encode_cons _ _ [x1; x2; x3; x4] t4).
  - apply encode_char4; [lia | exact C2 | exact C3 | exact C4].
  - apply IH; [cbn [List.length] in Hlen; lia | exact Hd].
Qed.

Lemma encode_char_not_scalar (c : codepoint) :
  is_scalar c = false -> encode_char c = Raise UnicodeEncodeError.
Proof.
  intros H.
  assert (Hc : 0xD800 <= c <= 0xDFFF \/ 0x110000 <= c).
  { revert H. unfold is_scalar, is_surrogate.
    destruct (N.ltb_spec c 0x110000); destruct (N.leb_spec 0xD800 c);
      destruct (N.leb_spec c 0xDFFF); cbn [andb negb];
      try discriminate; intros _; lia. }
  unfold encode_char, is_surrogate.
  destruct Hc as [Hc|Hc]; rewrite (ltb_ge' c 0x80), (ltb_ge' c 0x800) by lia.
  - rewrite (proj2 (N.leb_le _ _)), (proj2 (N.leb_le _ _)) by lia.
    reflexivity.
  - destruct ((0xD800 <=? c) && (c <=? 0xDFFF)); [reflexivity|].
    rewrite (ltb_ge' c 0x10000), (ltb_ge' c 0x110000) by lia. reflexivity.
Qed.

Lemma encode_outcome (s : str) :
  (encodable s = true -> exists b, encode s = Ok b)
  /\ (encodable s = false -> encode s = Raise UnicodeEncodeError).
Proof.
  unfold encodable. induction s as [|c s [IH1 IH2]].
  - split; [now exists [] | discriminate].
  - cbn [forallb encode]. destruct (is_scalar c) eqn:Ec; cbn [andb].
    + destruct (encode_char_scalar c Ec) as [b ->]. split.
      * intros H. destruct (IH1 H) as [r ->]. eauto.
      * intros H. now rewrite (IH2 H).
    + split; [discriminate|]. intros _.
      now rewrite (encode_char_not_scalar c Ec).
Qed.
End Utf8More.

(** X1. What [message.encode()] makes of a message and
    [original.decode()] makes of the outcome: a message without a lone
    surrogate is encoded, and decoding the octets gives it back; any other
    message raises [UnicodeEncodeError]; and no two messages have the same
    encoding. *)
Theorem utf8_round_trip (s : str) :
  (Utf8.encodable s = true ->
   exists b, Utf8.encode s = Ok b /\ Utf8.decode b = Ok s)
  /\ (Utf8.encodable s = false -> Utf8.encode s = Raise UnicodeEncodeError)
  /\ (forall t b, Utf8.encode s = Ok b -> Utf8.encode t = Ok b -> s = t).
Proof.
  destruct (Utf8More.encode_outcome s) as [H1 H2].
  split; [|split].
  - intros H. destruct (H1 H) as [b Hb]. exists b.
    split; [exact Hb | now apply Utf8Facts.decode_encode].
  - exact H2.
  - intros t b Hs Ht.
    apply Utf8Facts.decode_encode in Hs, Ht. congruence.
Qed.

(** The euro sign, then a lone surrogate. *)
Lemma utf8_round_trip_witness :
  (exists b, Utf8.encode [0x20AC] = Ok b /\ Utf8.decode b = Ok [0x20AC])
  /\ Utf8.encode [0x41; 0xD800] = Raise UnicodeEncodeError.
Proof.
  split.
  - apply (proj1 (utf8_round_trip [0x20AC])). reflexivity.
  - apply (proj1 (proj2 (utf8_round_trip [0x41; 0xD800]))). reflexivity.
Defined.

(** X2. Strict decoding is canonical: whatever buffer [decode] accepts is
    the encoding of the text it returns, so no overlong form, surrogate or
    out-of-range sequence is accepted and two different buffers never
    decode to the same text. *)
Theorem utf8_decode_canonical (b : bytes) (s : str) :
  Utf8.decode b = Ok s ->
  Utf8.encode s = Ok b
  /\ Utf8.encodable s = true
  /\ (forall b', Utf8.decode b' = Ok s -> b' = b).
Proof.
  intros H.
  assert (E : Utf8.encode s = Ok b)
    by now apply (Utf8More.encode_decode (List.length b) b s).
  split; [exact E|]. split.
  - destruct (Utf8.encodable s) eqn:Es; [reflexivity|].
    apply (proj2 (Utf8More.encode_outcome s)) in Es. congruence.
  - intros b' H'.
    apply (Utf8More.encode_decode (List.length b') b' s) in H'; [|lia].
    congruence.
Qed.

(** The three octets of the euro sign. *)
Lemma utf8_decode_canonical_witness :
  Utf8.encode [0x20AC] = Ok [xe2; x82; xac]
  /\ Utf8.encodable [0x20AC] = true
  /\ (forall b', Utf8.decode b' = Ok [0x20AC] -> b' = [xe2; x82; xac]).
Proof.
  apply (utf8_decode_canonical [xe2; x82; xac] [0x20AC]). reflexivity.
Defined.

(** ** When verification accepts *)

Lemma py_str_eq_true (s : str) (v : pyval) :
  py_str_eq s v = true -> v = VStr s.
Proof.
  destruct v as [t| | |]; cbn [py_str_eq]; try discriminate.
  unfold str_eqb. destruct (list_eq_dec N.eq_dec s t) as [->|Hn];
    [reflexivity | discriminate].
Qed.

(** X3. [verify_signature] returns [True] exactly when the message is a
    [str], both hex strings decode, and the primitive's [verify] returns,
    without raising, the very octets [message.encode()] gives.  For any
    other input it returns [False] or raises. *)
Theorem verify_signature_true_iff (P : Primitive)
  (message signature_hex public_key_hex : pyval) (w : world P) :
  fst (verify_signature P message signature_hex public_key_hex w) = Ok true
  <-> exists (m : str) (sig pk data : bytes),
        message = VStr m
        /\ bytes_fromhex signature_hex = Ok sig
        /\ bytes_fromhex public_key_hex = Ok pk
        /\ Utf8.encode m = Ok data
        /\ verify P pk sig = Ok data.
Proof.
  split.
  - destruct (bytes_fromhex signature_hex) as [sig|e] eqn:Hs.
    2:{ rewrite (verify_signature_raises P message _ _ e w (or_introl Hs)).
        discriminate. }
    destruct (bytes_fromhex public_key_hex) as [pk|e] eqn:Hk.
    2:{ rewrite (verify_signature_raises P message _ _ e w
                   (or_intror (conj (ex_intro _ sig Hs) Hk))).
        discriminate. }
    rewrite (verify_signature_run P message _ _ sig pk w Hs Hk).
    cbn [fst]. unfold verdict.
    destruct (verify P pk sig) as [original|] eqn:Hv; [|discriminate].
    destruct (Utf8.decode original) as [decoded|] eqn:Hd; [|discriminate].
    intros H. apply Ok_inj in H. apply py_str_eq_true in H.
    exists decoded, sig, pk, original. repeat split; try assumption.
    now apply (Utf8More.encode_decode (List.length original)).
  - intros (m & sig & pk & data & -> & Hs & Hk & Hd & Hv).
    rewrite (verify_signature_run P m _ _ sig pk w Hs Hk).
    cbn [fst]. unfold verdict.
    rewrite Hv, (Utf8Facts.decode_encode m data Hd). cbn [py_str_eq].
    now rewrite str_eqb_refl.
Qed.

(** A signed ["hi"] accepted; the same octets passed as [bytes] are not. *)
Lemma verify_signature_true_iff_witness :
  let P := Transparent.primitive in
  let w := Transparent.start 4 true 0 in
  fst (verify_signature P (text "hi") (text "000000076869") (text "00000007") w)
  = Ok true
  /\ fst (verify_signature P (VBytes [x68; x69]) (text "000000076869")
            (text "00000007") w) <> Ok true.
Proof.
  cbv zeta. split.
  - apply (proj2 (verify_signature_true_iff Transparent.primitive (text "hi")
                    (text "000000076869") (text "00000007")
                    (Transparent.start 4 true 0))).
    exists (text "hi"), [x00; x00; x00; x07; x68; x69], [x00; x00; x00; x07],
      [x68; x69].
    repeat split.
  - intros H.
    apply (proj1 (verify_signature_true_iff Transparent.primitive
                    (VBytes [x68; x69]) (text "000000076869")
                    (text "00000007") (Transparent.start 4 true 0))) in H.
    destruct H as (m & _ & _ & _ & H & _). discriminate H.
Defined.

(** ** What signing refuses *)

(** X4. The order of the failures of [sign_message]: a secret-key string
    that [bytes.fromhex] rejects raises its [ValueError] whatever the
    message is; with a key that decodes, a message holding a lone
    surrogate raises [UnicodeEncodeError] and a message that is no [str]
    raises [AttributeError].  In each case the primitive is not invoked and
    no entropy is drawn. *)
Theorem sign_message_errors (P : Primitive) (secret_key_hex : str)
  (w : world P) :
  (Hex.fromhex secret_key_hex = Raise ValueError ->
   forall message : pyval,
     sign_message P message secret_key_hex w = (Raise ValueError, w))
  /\ (forall sk (m : str),
        Hex.fromhex secret_key_hex = Ok sk -> Utf8.encodable m = false ->
        sign_message P m secret_key_hex w = (Raise UnicodeEncodeError, w))
  /\ (forall sk (message : pyval),
        Hex.fromhex secret_key_hex = Ok sk ->
        (forall m : str, message <> VStr m) ->
        sign_message P message secret_key_hex w = (Raise AttributeError, w)).
Proof.
  unfold sign_message, bind, lift. cbn [bytes_fromhex].
  split; [|split].
  - intros Hk message. now rewrite Hk.
  - intros sk m Hk Hm. rewrite Hk. cbn [str_encode].
    now rewrite (proj2 (Utf8More.encode_outcome m) Hm).
  - intros sk message Hk Hm. rewrite Hk.
    destruct message as [m| | |]; try reflexivity.
    now elim (Hm m).
Qed.

(** An odd-length key, a four-octet key with a lone surrogate to sign, and
    the same key with a [bytes] message. *)
Lemma sign_message_errors_witness :
  let P := Transparent.primitive in
  let w := Transparent.start 4 true 0 in
  sign_message P (VStr [0xD800]) (text "abc") w = (Raise ValueError, w)
  /\ sign_message P (VStr [0xD800]) (text "00000007") w
     = (Raise UnicodeEncodeError, w)
  /\ sign_message P (VBytes [x68; x69]) (text "00000007") w
     = (Raise AttributeError, w).
Proof.
  cbv zeta.
  destruct (sign_message_errors Transparent.primitive (text "abc")
              (Transparent.start 4 true 0)) as (H1 & _ & _).
  destruct (sign_message_errors Transparent.primitive (text "00000007")
              (Transparent.start 4 true 0)) as (_ & H2 & H3).
  split; [|split].
  - apply H1. reflexivity.
  - apply (H2 [x00; x00; x00; x07]); reflexivity.
  - apply (H3 [x00; x00; x00; x07]); [reflexivity | discriminate].
Defined.

(** ** From signing to verification *)

Lemma is_hexdigit_digit (d : N) : d < 16 -> Hex.is_hexdigit (Hex.digit d) = true.
Proof.
  intros H. unfold Hex.is_hexdigit. now rewrite HexFacts.digit_value_digit.
Qed.

Lemma hex_valid (b : bytes) : Hex.valid (Hex.hex b) = true.
Proof.
  induction b as [|x b IH]; [reflexivity|].
  pose proof (to_N_lt x) as Hx. cbn [Hex.hex].
  rewrite HexFacts.valid_cons2, IH, !is_hexdigit_digit by lia. reflexivity.
Qed.

(** X5. Whatever [sign_message] returns is canonical hex: even length, only
    [0-9a-f].  So the decoding step of [verify_signature] never fails on
    it: with any message and any public-key string that decodes, the
    signature reaches the primitive and the call returns a boolean.  This
    holds for every primitive. *)
Theorem signature_always_decodes (P : Primitive)
  (message secret_key_hex : pyval) (sig_hex : str) (w w' : world P) :
  sign_message P message secret_key_hex w = (Ok sig_hex, w') ->
  Hex.valid sig_hex = true
  /\ forallb Hex.is_lower_hexdigit sig_hex = true
  /\ exists sig,
       Hex.fromhex sig_hex = Ok sig
       /\ forall (message' public_key_hex : pyval) pk (w2 : world P),
            bytes_fromhex public_key_hex = Ok pk ->
            exists b : bool,
              verify_signature P message' sig_hex public_key_hex w2
              = (Ok b, after_call P (CallVerify pk sig) w2 (rng w2)).
Proof.
  intros Hrun.
  apply sign_message_returns in Hrun as (sk & data & sig & _ & _ & _ & ->).
  split; [apply hex_valid|]. split; [apply HexFacts.hex_lower|].
  exists sig. split; [apply HexFacts.fromhex_hex|].
  intros message' public_key_hex pk w2 Hk.
  exists (verdict P message' pk sig).
  apply verify_signature_run; [apply HexFacts.fromhex_hex | exact Hk].
Qed.

(** A signature by a one-octet key under the lenient instance, verified
    against an unrelated key. *)
Lemma signature_always_decodes_witness :
  let P := Transparent.lenient in
  let w := Transparent.start 4 false 0 in
  Hex.valid (text "016869") = true
  /\ forallb Hex.is_lower_hexdigit (text "016869") = true
  /\ exists sig,
       Hex.fromhex (text "016869") = Ok sig
       /\ forall (message' public_key_hex : pyval) pk (w2 : world P),
            bytes_fromhex public_key_hex = Ok pk ->
            exists b : bool,
              verify_signature P message' (text "016869") public_key_hex w2
              = (Ok b, after_call P (CallVerify pk sig) w2 (rng w2)).
Proof.
  cbv zeta.
  apply (signature_always_decodes Transparent.lenient (text "hi") (text "01")
           (text "016869") (Transparent.start 4 false 0)
           (after_call Transparent.lenient (CallSign [x01] [x68; x69])
              (Transparent.start 4 false 0) 0)).
  reflexivity.
Defined.

(** ** Hex arguments are read up to case and spacing *)

Lemma fromhex_same_text (s t : str) (b b' : bytes) :
  Hex.fromhex s = Ok b -> Hex.fromhex t = Ok b' ->
  Hex.lowercase (Hex.strip s) = Hex.lowercase (Hex.strip t) -> b = b'.
Proof.
  intros Hs Ht E.
  apply HexFacts.fromhex_strip in Hs, Ht.
  assert (Hb : Hex.hex b = Hex.hex b') by congruence.
  apply (f_equal Hex.fromhex) in Hb.
  rewrite !HexFacts.fromhex_hex in Hb. now apply Ok_inj in Hb.
Qed.

(** X6. The hex arguments are not canonical identifiers: two signature
    strings, and two public-key strings, that [bytes.fromhex] both takes
    and that agree once whitespace is dropped and letters are lowered give
    the same outcome of [verify_signature]; likewise two such secret-key
    strings in [sign_message]. *)
Theorem hex_arguments_up_to_case_and_space (P : Primitive) (message : pyval)
  (s s' k k' : str) (w : world P) :
  Hex.accepted s -> Hex.accepted s' ->
  Hex.accepted k -> Hex.accepted k' ->
  Hex.lowercase (Hex.strip s) = Hex.lowercase (Hex.strip s') ->
  Hex.lowercase (Hex.strip k) = Hex.lowercase (Hex.strip k') ->
  verify_signature P message s k w = verify_signature P message s' k' w
  /\ sign_message P message k w = sign_message P message k' w.
Proof.
  intros As As' Ak Ak' Es Ek.
  apply HexFacts.fromhex_accepted in As as [b Hb], As' as [b' Hb'].
  apply HexFacts.fromhex_accepted in Ak as [c Hc], Ak' as [c' Hc'].
  assert (b' = b) by (symmetry; now apply (fromhex_same_text s s')).
  assert (c' = c) by (symmetry; now apply (fromhex_same_text k k')).
  subst b' c'. split.
  - now rewrite (verify_signature_run P message s k b c w Hb Hc),
      (verify_signature_run P message s' k' b c w Hb' Hc').
  - unfold sign_message, bind, lift. cbn [bytes_fromhex].
    now rewrite Hc, Hc'.
Qed.

(** The signature in capitals and in groups of four, the key with a
    trailing line break. *)
Lemma hex_arguments_up_to_case_and_space_witness :
  let P := Transparent.primitive in
  let w := Transparent.start 4 true 0 in
  fst (verify_signature P (text "hi") (text "000000076869") (text "00000007") w)
  = Ok true
  /\ verify_signature P (text "hi") (text "000000076869") (text "00000007") w
     = verify_signature P (text "hi") (text "0000 0007 6869")
         (VStr (text "00000007" ++ [10])) w
  /\ sign_message P (text "hi") (text "0000000A") w
     = sign_message P (text "hi") (text "00 00 00 0a") w.
Proof.
  cbv zeta. split; [reflexivity|].
  assert (A : forall t, (exists b, Hex.fromhex t = Ok b) -> Hex.accepted t)
    by (intros t; apply HexFacts.fromhex_accepted).
  split.
  - apply (hex_arguments_up_to_case_and_space Transparent.primitive (text "hi")
             (text "000000076869") (text "0000 0007 6869")
             (text "00000007") (text "00000007" ++ [10])
             (Transparent.start 4 true 0));
      try (apply A; eexists; reflexivity); reflexivity.
  - apply (hex_arguments_up_to_case_and_space Transparent.primitive (text "hi")
             (text "") (text "")
             (text "0000000A") (text "00 00 00 0a")
             (Transparent.start 4 true 0));
      try (apply A; eexists; reflexivity); reflexivity.
Defined.

(** ** Generating, then signing, then verifying *)

(** X7. The three functions in sequence, through the record, on a library
    of the shape the design describes that is correct in the sense
    [verify(pk, m, sign(sk, m)) == true]: when [generate_quantum_keypair]
    returns [keys], both fields are there; when signing a message with
    [keys['secret_key']] then returns a signature, the library accepts it
    for the message under the generated public key, and verifying the
    message against it with [keys['public_key']] returns [False]; the
    library has been called three times, once for each step. *)
Theorem keygen_sign_verify (L : Library.t) (m sig_hex : str)
  (w w1 w2 : world (Library.as_called L)) (keys : key_record) :
  Library.correct L ->
  generate_quantum_keypair (Library.as_called L) w = (Ok keys, w1) ->
  exists sk_hex pk_hex : str,
    getitem keys "secret_key" = Ok sk_hex
    /\ getitem keys "public_key" = Ok pk_hex
    /\ (sign_message (Library.as_called L) m sk_hex w1 = (Ok sig_hex, w2) ->
        exists pk sk data sig w3,
          Utf8.encode m = Ok data
          /\ Library.verify L pk data sig = Ok true
          /\ verify_signature (Library.as_called L) m sig_hex pk_hex w2
             = (Ok false, w3)
          /\ calls w3
             = calls w ++ [CallKeygen; CallSign sk data; CallVerify pk sig]).
Proof.
  intros Hcorrect Hgen.
  rewrite generate_quantum_keypair_run in Hgen.
  change (generate_keypair (Library.as_called L)) with (Library.keygen L)
    in Hgen.
  destruct (Library.keygen L (rng w)) as [[[pk sk]|e] e1] eqn:Hkg;
    cbn [fst snd] in Hgen; [|discriminate].
  assert (Hkeys : keys = [("public_key"%string, Hex.hex pk);
                          ("secret_key"%string, Hex.hex sk)]) by congruence.
  assert (Hw1 : w1 = after_call (Library.as_called L) CallKeygen w e1)
    by congruence.
  clear Hgen. subst keys.
  assert (Hkp : Library.keypair_of L pk sk) by (exists (rng w), e1; exact Hkg).
  exists (Hex.hex sk), (Hex.hex pk).
  split; [reflexivity|]. split; [reflexivity|]. intros Hrun.
  destruct (LibraryFacts.signed_then_accepted L pk sk m sig_hex w1 w2
              Hcorrect Hkp Hrun) as (sig & data & -> & Hd & Hv).
  rewrite (sign_message_run (Library.as_called L) m (Hex.hex sk) sk data w1
             (HexFacts.fromhex_hex sk) Hd) in Hrun.
  assert (Hw2 : w2 = after_call (Library.as_called L) (CallSign sk data) w1
                       (snd (sign (Library.as_called L) sk data (rng w1))))
    by congruence.
  exists pk, sk, data, sig. eexists.
  split; [exact Hd|]. split; [exact Hv|]. split.
  - apply LibraryFacts.verify_signature_as_called; cbn [bytes_fromhex];
      apply HexFacts.fromhex_hex.
  - subst w2 w1. cbn [calls after_call]. now rewrite <- !app_assoc.
Qed.

(** The invoice of the example scenario, from a fresh state of the detached
    instance. *)
Lemma keygen_sign_verify_witness :
  let L := Tagged.library in
  let P := Library.as_called L in
  let w := Tagged.start 7 in
  let keys := [("public_key"%string, text "00000007");
               ("secret_key"%string, text "00000007")] in
  let m := text "Invoice #12345" in
  Library.correct L
  /\ generate_quantum_keypair P w = (Ok keys, after_call P CallKeygen w 8)
  /\ exists (sig_hex : str) (w2 : world P),
       sign_message P m (text "00000007") (after_call P CallKeygen w 8)
       = (Ok sig_hex, w2)
       /\ exists pk sk data sig w3,
            Utf8.encode m = Ok data
            /\ Library.verify L pk data sig = Ok true
            /\ verify_signature P m sig_hex (text "00000007") w2
               = (Ok false, w3)
            /\ calls w3
               = calls w ++ [CallKeygen; CallSign sk data; CallVerify pk sig].
Proof.
  intros L P w keys m.
  split; [exact LibraryFacts.tagged_correct|]. split; [reflexivity|].
  eexists. eexists. split; [reflexivity|].
  destruct (keygen_sign_verify L m
              (Hex.hex (Tagged.tag (Transparent.key_of 7)
                          [x49; x6e; x76; x6f; x69; x63; x65; x20; x23; x31;
                           x32; x33; x34; x35]))
              w (after_call P CallKeygen w 8)
              (after_call P
                 (CallSign (Transparent.key_of 7)
                    [x49; x6e; x76; x6f; x69; x63; x65; x20; x23; x31; x32; x33;
                     x34; x35])
                 (after_call P CallKeygen w 8) 8)
              keys LibraryFacts.tagged_correct eq_refl)
    as (sk_hex & pk_hex & Hsk & Hpk & H).
  cbn in Hsk, Hpk. apply Ok_inj in Hsk. apply Ok_inj in Hpk. subst sk_hex pk_hex.
  apply H. reflexivity.
Defined.

(** ** The record of a generated pair *)

(** X8. Every record [generate_quantum_keypair] returns has the two fields
    [public_key] and [secret_key] and no other (any other key is a
    [KeyError]); each field is a valid hex string, two digits to the
    octet, that [bytes.fromhex] turns back into the buffer of a pair the
    primitive generated; and the primitive was called once, for that
    pair. *)
Theorem key_record_shape (P : Primitive) (w w1 : world P)
  (keys : key_record) :
  generate_quantum_keypair P w = (Ok keys, w1) ->
  exists pk sk pk_hex sk_hex,
    keypair_of P pk sk
    /\ getitem keys "public_key" = Ok pk_hex
    /\ getitem keys "secret_key" = Ok sk_hex
    /\ (forall k, k <> "public_key"%string -> k <> "secret_key"%string ->
                  getitem keys k = Raise (OtherError "KeyError"))
    /\ Hex.fromhex pk_hex = Ok pk /\ Hex.fromhex sk_hex = Ok sk
    /\ Hex.valid pk_hex = true /\ Hex.valid sk_hex = true
    /\ List.length pk_hex = (2 * List.length pk)%nat
    /\ List.length sk_hex = (2 * List.length sk)%nat
    /\ calls w1 = calls w ++ [CallKeygen].
Proof.
  intros Hgen. rewrite generate_quantum_keypair_run in Hgen.
  destruct (generate_keypair P (rng w)) as [[[pk sk]|e] e1] eqn:Hkg;
    cbn [fst snd] in Hgen; [|discriminate].
  assert (Hkeys : keys = [("public_key"%string, Hex.hex pk);
                          ("secret_key"%string, Hex.hex sk)]) by congruence.
  assert (Hw1 : w1 = after_call P CallKeygen w e1) by congruence.
  subst keys w1. exists pk, sk, (Hex.hex pk), (Hex.hex sk).
  split; [exists (rng w), e1; exact Hkg|].
  split; [reflexivity|]. split; [reflexivity|]. split.
  { intros k H1 H2. cbn [getitem].
    destruct (String.eqb_spec "public_key" k) as [E|_]; [now elim H1|].
    destruct (String.eqb_spec "secret_key" k) as [E|_]; [now elim H2|].
    reflexivity. }
  rewrite !HexFacts.fromhex_hex, !hex_valid, !HexFacts.hex_length.
  repeat split.
Qed.

(** The pair generated from entropy 7, and a key that is not there. *)
Lemma key_record_shape_witness :
  let P := Transparent.primitive in
  let w := Transparent.start 4 true 7 in
  let keys := [("public_key"%string, text "00000007");
               ("secret_key"%string, text "00000007")] in
  exists pk sk pk_hex sk_hex,
    keypair_of P pk sk
    /\ getitem keys "public_key" = Ok pk_hex
    /\ getitem keys "secret_key" = Ok sk_hex
    /\ (forall k, k <> "public_key"%string -> k <> "secret_key"%string ->
                  getitem keys k = Raise (OtherError "KeyError"))
    /\ Hex.fromhex pk_hex = Ok pk /\ Hex.fromhex sk_hex = Ok sk
    /\ Hex.valid pk_hex = true /\ Hex.valid sk_hex = true
    /\ List.length pk_hex = (2 * List.length pk)%nat
    /\ List.length sk_hex = (2 * List.length sk)%nat
    /\ calls (after_call P CallKeygen w 8) = calls w ++ [CallKeygen].
Proof.
  cbv zeta.
  apply (key_record_shape Transparent.primitive (Transparent.start 4 true 7)).
  reflexivity.
Defined.

(** ** The script *)

Module ScriptFacts.

(** A lowercase hex digit is written to JSON as it is. *)
Lemma escape_hexdigit (c : codepoint) :
  Hex.is_lower_hexdigit c = true -> Json.escape_char c = [c].
Proof.
  unfold Hex.is_lower_hexdigit, Json.escape_char.
  destruct (N.leb_spec 48 c); destruct (N.leb_spec c 57);
    destruct (N.leb_spec 97 c); destruct (N.leb_spec c 102);
    cbn [andb orb]; try discriminate; intros _.
  all: repeat match goal with
       | |- context [N.eqb ?a ?k] => destruct (N.eqb_spec a k); [lia|]
       end.
  all: destruct (N.leb_spec 0x20 c); [|lia].
  all: destruct (N.leb_spec c 0x7E); [reflexivity | lia].
Qed.

Lemma escape_hex (b : bytes) : flat_map Json.escape_char (Hex.hex b) = Hex.hex b.
Proof.
  pose proof (HexFacts.hex_lower b) as H.
  induction (Hex.hex b) as [|c s IH]; [reflexivity|].
  cbn [forallb] in H. apply andb_true_iff in H as [Hc Hs].
  cbn [flat_map]. rewrite (escape_hexdigit c Hc), (IH Hs). reflexivity.
Qed.

(** The text written for a record of two hex fields. *)
Lemma dumps_keys (pk sk : bytes) :
  Json.dumps [("public_key"%string, Hex.hex pk);
              ("secret_key"%string, Hex.hex sk)]
  = [123; 10] ++ text "  " ++ [34] ++ text "public_key" ++ [34] ++ text ": "
    ++ [34] ++ Hex.hex pk ++ [34] ++ text "," ++ [10]
    ++ text "  " ++ [34] ++ text "secret_key" ++ [34] ++ text ": "
    ++ [34] ++ Hex.hex sk ++ [34] ++ [10; 125].
Proof.
  unfold Json.dumps, Json.items, Json.item, Json.encode_string. cbn [fst snd].
  rewrite !escape_hex.
  change (flat_map Json.escape_char (text "public_key"))
    with (text "public_key").
  change (flat_map Json.escape_char (text "secret_key"))
    with (text "secret_key").
  unfold Json.newline_indent.
  repeat (rewrite <- app_assoc || cbn [app]). reflexivity.
Qed.

Lemma content_filter_other (p path : string) (fs : list (string * str)) :
  p <> path ->
  content p (filter (fun pc => negb (String.eqb (fst pc) path)) fs)
  = content p fs.
Proof.
  intros Hp. induction fs as [|[q c] fs IH]; [reflexivity|].
  cbn [filter fst content].
  destruct (String.eqb_spec q path) as [->|Hq]; cbn [negb content].
  - destruct (String.eqb_spec path p) as [E|_]; [now elim Hp | exact IH].
  - now rewrite IH.
Qed.

Lemma content_store_same (path : string) (c : str) (fs : list (string * str)) :
  content path (store path c fs) = Some c.
Proof. unfold store. cbn [content]. now rewrite String.eqb_refl. Qed.

Lemma content_store_other (p path : string) (c : str)
  (fs : list (string * str)) :
  p <> path -> content p (store path c fs) = content p fs.
Proof.
  intros Hp. unfold store. cbn [content].
  destruct (String.eqb_spec path p) as [E|_]; [now elim Hp|].
  now apply content_filter_other.
Qed.

(** Every standard output takes a line of ASCII. *)
Lemma printable_ascii (h : host) (line : str) :
  forallb (fun c => c <? 0x80) line = true -> printable h line = true.
Proof.
  unfold printable. induction line as [|c line IH]; [reflexivity|].
  cbn [forallb]. intros H. apply andb_true_iff in H as [Hc Hl].
  now rewrite Hc, (IH Hl).
Qed.

Lemma print_ascii (h : host) (line : str) :
  forallb (fun c => c <? 0x80) line = true -> print line h = Ok (emit line h).
Proof. intros H. unfold print. now rewrite (printable_ascii h line H). Qed.

(** A line that starts with the check mark and is ASCII after it is printed
    exactly when the standard output can encode the check mark. *)
Lemma print_marked (h : host) (line : str) :
  forallb (fun c => c <? 0x80) line = true ->
  print (check_mark ++ line) h
  = if encodes h 0x2713 then Ok (emit (check_mark ++ line) h)
    else Raise UnicodeEncodeError.
Proof.
  intros H. unfold print, printable, check_mark.
  cbn [app forallb]. change (0x2713 <? 0x80) with false. cbn [orb].
  fold (printable h line). rewrite (printable_ascii h line H).
  now destruct (encodes h 0x2713).
Qed.

Lemma uint_ascii (u : Decimal.uint) :
  forallb (fun c => c <? 0x80) (text (NilEmpty.string_of_uint u)) = true.
Proof. induction u; cbn [NilEmpty.string_of_uint text forallb]; auto. Qed.

(** [str(n)] is made of digits. *)
Lemma decimal_ascii (n : nat) :
  forallb (fun c => c <? 0x80) (decimal n) = true.
Proof.
  unfold decimal, NilZero.string_of_uint.
  destruct (Nat.to_uint n) eqn:E; try (rewrite <- E; apply uint_ascii).
  reflexivity.
Qed.

End ScriptFacts.

(** X9. A run of the script in which key generation returns [(pk, sk)] and
    [quantum_keys.json] can be opened.  The file ends up holding exactly
    the two-line JSON object with [pk.hex()] and [sk.hex()] verbatim
    between the quotes (the secret key in clear), and every other file is
    left as it was.  What follows depends on the standard output: when it
    can encode the check mark U+2713 the run ends normally with four lines
    printed, the length reported being twice the number of octets of the
    public key; when it cannot, the second [print] raises
    [UnicodeEncodeError] with only the first line printed, after the file
    has been written. *)
Theorem main_persists (P : Primitive) (w : world P) (h : host)
  (pk sk : bytes) (e : entropy P) :
  generate_keypair P (rng w) = (Ok (pk, sk), e) ->
  mem "quantum_keys.json" (locked h) = false ->
  exists (r : result unit) (h' : host),
    main P w h = (r, after_call P CallKeygen w e, h')
    /\ content "quantum_keys.json" (files h')
       = Some ([123; 10] ++ text "  " ++ [34] ++ text "public_key" ++ [34]
               ++ text ": " ++ [34] ++ Hex.hex pk ++ [34] ++ text "," ++ [10]
               ++ text "  " ++ [34] ++ text "secret_key" ++ [34]
               ++ text ": " ++ [34] ++ Hex.hex sk ++ [34] ++ [10; 125])
    /\ (forall p, p <> "quantum_keys.json"%string ->
                  content p (files h') = content p (files h))
    /\ (encodes h 0x2713 = true ->
        r = Ok tt
        /\ stdout h'
           = stdout h
             ++ [text "Generating quantum-resistant keypair...";
                 check_mark
                   ++ text " Quantum keys generated: quantum_keys.json";
                 check_mark ++ text " Public key length: "
                   ++ decimal (2 * List.length pk) ++ text " chars";
                 check_mark
                   ++ text " Algorithm: CRYSTALS-Dilithium5 (NIST PQC)"])
    /\ (encodes h 0x2713 = false ->
        r = Raise UnicodeEncodeError
        /\ stdout h'
           = stdout h ++ [text "Generating quantum-resistant keypair..."]).
Proof.
  intros Hgen Hlock. unfold main.
  rewrite (ScriptFacts.print_ascii h
             (text "Generating quantum-resistant keypair...") eq_refl).
  rewrite generate_quantum_keypair_run, Hgen. cbn [fst snd].
  unfold open_w, emit. cbn [stdout files locked encodes]. rewrite Hlock.
  unfold write. cbn [stdout files locked encodes].
  rewrite ScriptFacts.content_store_same.
  cbn [getitem String.eqb Ascii.eqb Bool.eqb].
  rewrite (ScriptFacts.print_marked _
             (text " Quantum keys generated: quantum_keys.json") eq_refl).
  unfold emit. cbn [stdout files locked encodes].
  destruct (encodes h 0x2713) eqn:Hmark.
  - assert (Hthird : forallb (fun c => c <? 0x80)
                       (text " Public key length: "
                        ++ decimal (List.length (Hex.hex pk))
                        ++ text " chars") = true).
    { rewrite !forallb_app, ScriptFacts.decimal_ascii. reflexivity. }
    rewrite (ScriptFacts.print_marked _ _ Hthird).
    unfold emit. cbn [stdout files locked encodes]. rewrite Hmark.
    rewrite (ScriptFacts.print_marked _
               (text " Algorithm: CRYSTALS-Dilithium5 (NIST PQC)") eq_refl).
    unfold emit. cbn [stdout files locked encodes]. rewrite Hmark.
    eexists. eexists. split; [reflexivity|]. cbn [stdout files].
    split; [|split; [|split]].
    + rewrite ScriptFacts.content_store_same, ScriptFacts.dumps_keys.
      reflexivity.
    + intros p Hp. now rewrite !ScriptFacts.content_store_other.
    + intros _. split; [reflexivity|].
      rewrite HexFacts.hex_length. rewrite <- !app_assoc. reflexivity.
    + discriminate.
  - eexists. eexists. split; [reflexivity|]. cbn [stdout files].
    split; [|split; [|split]].
    + rewrite ScriptFacts.content_store_same, ScriptFacts.dumps_keys.
      reflexivity.
    + intros p Hp. now rewrite !ScriptFacts.content_store_other.
    + discriminate.
    + intros _. split; reflexivity.
Qed.

(** A first run on an empty host whose standard output is UTF-8, under the
    transparent instance. *)
Lemma main_persists_witness :
  let P := Transparent.primitive in
  let h := Build_host [] [] [] (fun _ => true) in
  exists (r : result unit) (h' : host),
    main P (Transparent.start 4 true 7) h
    = (r, after_call P CallKeygen (Transparent.start 4 true 7) 8, h')
    /\ content "quantum_keys.json" (files h')
       = Some ([123; 10] ++ text "  " ++ [34] ++ text "public_key" ++ [34]
               ++ text ": " ++ [34] ++ text "00000007" ++ [34] ++ text ","
               ++ [10]
               ++ text "  " ++ [34] ++ text "secret_key" ++ [34]
               ++ text ": " ++ [34] ++ text "00000007" ++ [34] ++ [10; 125])
    /\ (forall p, p <> "quantum_keys.json"%string ->
                  content p (files h') = content p [])
    /\ (encodes h 0x2713 = true ->
        r = Ok tt
        /\ stdout h'
           = [] ++ [text "Generating quantum-resistant keypair...";
                    check_mark
                      ++ text " Quantum keys generated: quantum_keys.json";
                    check_mark ++ text " Public key length: " ++ text "8"
                      ++ text " chars";
                    check_mark
                      ++ text " Algorithm: CRYSTALS-Dilithium5 (NIST PQC)"])
    /\ (encodes h 0x2713 = false ->
        r = Raise UnicodeEncodeError
        /\ stdout h'
           = [] ++ [text "Generating quantum-resistant keypair..."]).
Proof.
  cbv zeta.
  apply (main_persists Transparent.primitive (Transparent.start 4 true 7)
           (Build_host [] [] [] (fun _ => true)) (Transparent.key_of 7)
           (Transparent.key_of 7) 8); reflexivity.
Defined.

(** X10. A run of the script that fails before anything is written: when
    key generation raises, or when it returns a pair and
    [quantum_keys.json] cannot be opened, the exception goes to the caller
    with only the first line printed and every file as it was; in the
    second case the pair has been generated and is lost. *)
Theorem main_failure (P : Primitive) (w : world P) (h : host) :
  (forall x e,
     generate_keypair P (rng w) = (Raise x, e) ->
     main P w h
     = (Raise x, after_call P CallKeygen w e,
        emit (text "Generating quantum-resistant keypair...") h))
  /\ (forall pk sk e,
        generate_keypair P (rng w) = (Ok (pk, sk), e) ->
        mem "quantum_keys.json" (locked h) = true ->
        main P w h
        = (Raise (OtherError "OSError"), after_call P CallKeygen w e,
           emit (text "Generating quantum-resistant keypair...") h)).
Proof.
  split.
  - intros x e Hgen. unfold main.
    rewrite (ScriptFacts.print_ascii h
             (text "Generating quantum-resistant keypair...") eq_refl).
    now rewrite generate_quantum_keypair_run, Hgen.
  - intros pk sk e Hgen Hlock. unfold main.
    rewrite (ScriptFacts.print_ascii h
             (text "Generating quantum-resistant keypair...") eq_refl).
    rewrite generate_quantum_keypair_run, Hgen. cbn [fst snd].
    unfold open_w. cbn [locked emit]. now rewrite Hlock.
Qed.

(** A read-only [quantum_keys.json] that holds an older record. *)
Lemma main_failure_witness :
  let P := Transparent.primitive in
  let h := Build_host [] [("quantum_keys.json"%string, text "{}")]
             ["quantum_keys.json"%string] (fun _ => true) in
  main P (Transparent.start 4 true 7) h
  = (Raise (OtherError "OSError"),
     after_call P CallKeygen (Transparent.start 4 true 7) 8,
     emit (text "Generating quantum-resistant keypair...") h).
Proof.
  cbv zeta.
  apply (proj2 (main_failure Transparent.primitive (Transparent.start 4 true 7)
                  (Build_host [] [("quantum_keys.json"%string, text "{}")]
                     ["quantum_keys.json"%string] (fun _ => true)))
           (Transparent.key_of 7) (Transparent.key_of 7) 8); reflexivity.
Defined.
